(** * titan/props.py: property descriptors, parse / typecheck / render

    A shallow embedding of [titan/props.py].  Python values are a small
    universe [value]; exceptions are an explicit [result]; pyparsing
    grammars are functions from the remaining input to the matched tokens
    and the rest of the input.  [render] is there for every class; the
    grammar and [typecheck] are there for the classes that the statements
    below are about (boolean, string, flag, string list, tag map, enum and
    enum list). *)

From Stdlib Require Import String Ascii List ZArith Bool Lia Permutation.
From Stdlib Require Import DecimalString.
Import ListNotations.
Set Warnings "-register-all".
Local Open Scope list_scope.
Local Open Scope string_scope.

(** ** Python values *)

Module Py.

(** A member of an [enum.Enum] class: the class's qualified name, the
    member's name and its value (the serialized form). *)
Record EnumMember := mkMember {
  member_cls : string;
  member_name : string;
  member_value : string
}.

(** An [enum.Enum] class: its name and its members in definition order. *)
Record EnumType := mkEnum {
  enum_qualname : string;
  enum_members : list EnumMember
}.

Inductive value :=
| VNone
| VBool (b : bool)
| VInt (z : Z)
| VStr (s : string)
| VEnum (m : EnumMember)
| VList (l : list value)
| VDict (d : list (string * value)).

(** Exceptions raised by the code under study. *)
Inductive exn :=
| ParseException
    (* pyparsing: the input does not match the grammar *)
| InvalidBoolean (raw : string)
    (* ValueError(f"Invalid boolean value: {prop_value}") *)
| InvalidValue (v : EnumMember) (allowed : list EnumMember)
    (* ValueError(f"Invalid value: {prop_value} must be one of {self.valid_values}") *)
| NotAValidMember (raw : value) (cls : string)
    (* enum.Enum.__call__: ValueError(f"{raw!r} is not a valid {cls}") *)
| StopIteration
| NotImplementedError
| AttributeError
| TypeError
| KeyError (k : string).

Inductive result (A : Type) :=
| Ok (a : A)
| Raise (e : exn).
Arguments Ok {A} a.
Arguments Raise {A} e.

Definition bind {A B} (r : result A) (k : A -> result B) : result B :=
  match r with
  | Ok a => k a
  | Raise e => Raise e
  end.

Fixpoint mapM {A B} (f : A -> result B) (l : list A) : result (list B) :=
  match l with
  | [] => Ok []
  | a :: l' => bind (f a) (fun b => bind (mapM f l') (fun bs => Ok (b :: bs)))
  end.

(** *** Characters and [str] methods (ASCII) *)

Definition in_range (lo hi : N) (c : ascii) : bool :=
  let n := N_of_ascii c in (N.leb lo n && N.leb n hi)%bool.

Definition is_lower_c : ascii -> bool := in_range 97 122.
Definition is_upper_c : ascii -> bool := in_range 65 90.
Definition is_digit_c : ascii -> bool := in_range 48 57.

Definition upper_char (c : ascii) : ascii :=
  if is_lower_c c then ascii_of_N (N_of_ascii c - 32) else c.

Definition lower_char (c : ascii) : ascii :=
  if is_upper_c c then ascii_of_N (N_of_ascii c + 32) else c.

(** [str.upper] and [str.lower] on ASCII text: the letters a-z and A-Z
    change case and every other character stays.  On text with other
    letters the two methods do more; the statements about the text that
    [render] writes take a label of ASCII text ([ascii_text]). *)
Fixpoint upper (s : string) : string :=
  match s with
  | EmptyString => EmptyString
  | String c s' => String (upper_char c) (upper s')
  end.

Fixpoint lower (s : string) : string :=
  match s with
  | EmptyString => EmptyString
  | String c s' => String (lower_char c) (lower s')
  end.

Fixpoint lstrip (ch : ascii) (s : string) : string :=
  match s with
  | String c s' => if Ascii.eqb c ch then lstrip ch s' else s
  | EmptyString => EmptyString
  end.

Fixpoint rstrip (ch : ascii) (s : string) : string :=
  match s with
  | EmptyString => EmptyString
  | String c s' =>
      match rstrip ch s' with
      | EmptyString => if Ascii.eqb c ch then EmptyString else String c EmptyString
      | r => String c r
      end
  end.

(** [s.strip(ch)] for a one-character argument *)
Definition strip (ch : ascii) (s : string) : string := rstrip ch (lstrip ch s).

(** [s.split(sep)] for a one-character separator *)
Fixpoint split (sep : ascii) (s : string) : list string :=
  match s with
  | EmptyString => [EmptyString]
  | String c s' =>
      if Ascii.eqb c sep then EmptyString :: split sep s'
      else match split sep s' with
           | w :: ws => String c w :: ws
           | [] => [String c EmptyString]
           end
  end.

(** [sep.join(l)] *)
Definition join (sep : string) (l : list string) : string := String.concat sep l.

Fixpoint chars (s : string) : list string :=
  match s with
  | EmptyString => []
  | String c s' => String c EmptyString :: chars s'
  end.

(** *** [str], [repr], truthiness, [len] *)

Definition str_of_Z (z : Z) : string := NilZero.string_of_int (Z.to_int z).

(** [repr] of an enum member, the default of [enum.Enum]:
    [<Color.RED: 'RED'>]. *)
Definition repr_member (m : EnumMember) : string :=
  "<" ++ member_cls m ++ "." ++ member_name m ++ ": '" ++ member_value m ++ "'>".

(** [repr(v)].  The [repr] of a [str] is given for strings that need no
    escaping (no quote, backslash or control character). *)
Fixpoint py_repr (v : value) : string :=
  match v with
  | VNone => "None"
  | VBool true => "True"
  | VBool false => "False"
  | VInt z => str_of_Z z
  | VStr s => "'" ++ s ++ "'"
  | VEnum m => repr_member m
  | VList l => "[" ++ join ", " (map py_repr l) ++ "]"
  | VDict d =>
      "{" ++ join ", " (map (fun kv => "'" ++ fst kv ++ "': " ++ py_repr (snd kv)) d) ++ "}"
  end.

(** [str(v)], also what an f-string interpolates.  The enumerations of
    [titan.enums] are not part of the sources at hand.
    Modelled from the spec: the text of an enumeration member is its
    serialized form, the member's value. *)
Definition py_str (v : value) : string :=
  match v with
  | VStr s => s
  | VEnum m => member_value m
  | _ => py_repr v
  end.

(** [bool(v)] *)
Definition truthy (v : value) : bool :=
  match v with
  | VNone => false
  | VBool b => b
  | VInt z => negb (Z.eqb z 0)
  | VStr s => negb (String.eqb s EmptyString)
  | VEnum _ => true
  | VList l => match l with [] => false | _ => true end
  | VDict d => match d with [] => false | _ => true end
  end.

(** [len(v)] *)
Definition py_len (v : value) : result nat :=
  match v with
  | VStr s => Ok (String.length s)
  | VList l => Ok (List.length l)
  | VDict d => Ok (List.length d)
  | _ => Raise TypeError
  end.

(** *** Dictionaries: association lists in insertion order, keys unique *)

Definition dict := list (string * value).

Fixpoint dict_lookup (d : dict) (k : string) : option value :=
  match d with
  | [] => None
  | (k', v) :: d' => if String.eqb k' k then Some v else dict_lookup d' k
  end.

(** [d.get(k)]: the value, or [None] when the key is missing *)
Definition dict_get (d : dict) (k : string) : value :=
  match dict_lookup d k with
  | Some v => v
  | None => VNone
  end.

(** [d[k]] *)
Definition dict_getitem (d : dict) (k : string) : result value :=
  match dict_lookup d k with
  | Some v => Ok v
  | None => Raise (KeyError k)
  end.

(** [d[k] = v]: overwrite in place, or append a new key *)
Fixpoint dict_set (d : dict) (k : string) (v : value) : dict :=
  match d with
  | [] => [(k, v)]
  | (k', v') :: d' =>
      if String.eqb k' k then (k', v) :: d' else (k', v') :: dict_set d' k v
  end.

(** *** Enumerations *)

Definition member_eqb (a b : EnumMember) : bool :=
  (String.eqb (member_cls a) (member_cls b)
   && String.eqb (member_name a) (member_name b)
   && String.eqb (member_value a) (member_value b))%bool.

Definition member_in (m : EnumMember) (l : list EnumMember) : bool :=
  existsb (member_eqb m) l.

(** [T(raw)]: the member of [T] whose value is [raw]; a member of [T] is
    returned as it is; anything else is Python's own
    [ValueError: raw is not a valid T]. *)
Definition enum_call (T : EnumType) (raw : value) : result EnumMember :=
  match raw with
  | VEnum m =>
      if member_in m (enum_members T) then Ok m
      else Raise (NotAValidMember raw (enum_qualname T))
  | VStr s =>
      match find (fun m => String.eqb (member_value m) s) (enum_members T) with
      | Some m => Ok m
      | None => Raise (NotAValidMember raw (enum_qualname T))
      end
  | _ => Raise (NotAValidMember raw (enum_qualname T))
  end.

End Py.
Import Py.

Notation "x <- r ;; k" := (bind r (fun x => k))
  (at level 61, r at next level, right associativity).

(** ** titan/builder.py *)

Module Builder.

(** Modelled from the spec: [tidy_sql] of [titan.builder] is not part of
    the sources at hand.  The text formatter joins the non-empty rendered
    fragments with a single space.  A fragment that is not already text is
    taken by its [str]. *)
Definition tidy_sql (parts : list value) : string :=
  join " " (filter (fun s => negb (String.eqb s EmptyString)) (map py_str parts)).

End Builder.
Import Builder.

(** ** titan/parse.py: the lexical primitives *)

Module Parse.

(** A grammar element takes the remaining input and returns the tokens it
    matched (suppressed elements return none) and the input left over. *)
Definition Parser := string -> option (list string * string).

Definition is_space (c : ascii) : bool :=
  (Ascii.eqb c " " || Ascii.eqb c "009" || Ascii.eqb c "010" || Ascii.eqb c "013")%bool.

(** Every terminal skips leading white space. *)
Fixpoint skip_ws (s : string) : string :=
  match s with
  | String c s' => if is_space c then skip_ws s' else s
  | EmptyString => EmptyString
  end.

Definition is_alnum (c : ascii) : bool :=
  (is_lower_c c || is_upper_c c || is_digit_c c)%bool.

(** the characters of a bare word: letters, digits and the underscore *)
Definition is_word_c (c : ascii) : bool := (is_alnum c || Ascii.eqb c "_")%bool.

(** the characters that may not follow a keyword *)
Definition is_ident_c (c : ascii) : bool := (is_word_c c || Ascii.eqb c "$")%bool.

Fixpoint caseless_prefix (kw s : string) : option string :=
  match kw, s with
  | EmptyString, _ => Some s
  | String a kw', String b s' =>
      if Ascii.eqb (upper_char a) (upper_char b) then caseless_prefix kw' s' else None
  | String _ _, EmptyString => None
  end.

Fixpoint exact_prefix (lit s : string) : option string :=
  match lit, s with
  | EmptyString, _ => Some s
  | String a lit', String b s' =>
      if Ascii.eqb a b then exact_prefix lit' s' else None
  | String _ _, EmptyString => None
  end.

(** Modelled from the spec: the case-insensitive keyword matcher of the
    primitive layer.  It matches the word whatever its case, as a whole
    word (no identifier character may follow), and returns the keyword as
    it was declared.  An empty keyword matches nothing. *)
Definition Keyword (kw : string) : Parser := fun s =>
  match kw with
  | EmptyString => None
  | _ =>
      match caseless_prefix kw (skip_ws s) with
      | Some (String c r) => if is_ident_c c then None else Some ([kw], String c r)
      | Some EmptyString => Some ([kw], EmptyString)
      | None => None
      end
  end.

(** an exact literal such as [=], [(] or [,] *)
Definition Literal (lit : string) : Parser := fun s =>
  match exact_prefix lit (skip_ws s) with
  | Some r => Some ([lit], r)
  | None => None
  end.

Definition suppress (p : Parser) : Parser := fun s =>
  match p s with
  | Some (_, r) => Some ([], r)
  | None => None
  end.

(** [pp.And]: the elements in sequence, their tokens concatenated *)
Fixpoint And (ps : list Parser) : Parser := fun s =>
  match ps with
  | [] => Some ([], s)
  | p :: ps' =>
      match p s with
      | Some (t, r) =>
          match And ps' r with
          | Some (ts, r') => Some ((t ++ ts)%list, r')
          | None => None
          end
      | None => None
      end
  end.

(** [pp.Opt] *)
Definition Opt (p : Parser) : Parser := fun s =>
  match p s with
  | Some x => Some x
  | None => Some ([], s)
  end.

(** [pp.MatchFirst]: the first alternative that matches *)
Fixpoint MatchFirst (ps : list Parser) : Parser := fun s =>
  match ps with
  | [] => None
  | p :: ps' =>
      match p s with
      | Some x => Some x
      | None => MatchFirst ps' s
      end
  end.

(** Modelled from the spec: the keyword-sequence matcher.  The words of
    [keywords] are matched one after the other, each as a keyword, and the
    match is the single token [keywords]. *)
Definition Keywords (keywords : string) : Parser := fun s =>
  match And (map Keyword (split " " keywords)) s with
  | Some (ts, r) => Some ([join " " ts], r)
  | None => None
  end.

(** Modelled from the spec: the equals operator, matched and discarded. *)
Definition EQUALS : Parser := suppress (Literal "=").

Fixpoint span (p : ascii -> bool) (s : string) : string * string :=
  match s with
  | String c s' =>
      if p c then let (w, r) := span p s' in (String c w, r) else (EmptyString, s)
  | EmptyString => (EmptyString, EmptyString)
  end.

(** [pp.Word]: a non-empty run of the given characters *)
Definition Word (p : ascii -> bool) : Parser := fun s =>
  match span p (skip_ws s) with
  | (EmptyString, _) => None
  | (w, r) => Some ([w], r)
  end.

Definition is_quoted_body_c (c : ascii) : bool :=
  negb (Ascii.eqb c "'" || Ascii.eqb c "010" || Ascii.eqb c "013")%bool.

(** Modelled from the spec: the quoted-string matcher.  The token is the
    text between two single quotes on one line, quotes included (parse
    does not strip the quotes from the captured text).  Escape sequences
    are not modelled. *)
Definition sgl_quoted_string : Parser := fun s =>
  match skip_ws s with
  | String "'" s' =>
      match span is_quoted_body_c s' with
      | (body, String "'" r) => Some (["'" ++ body ++ "'"], r)
      | _ => None
      end
  | _ => None
  end.

(** Modelled from the spec: the wildcard for any token, a bare word or a
    quoted string. *)
Definition ANY : Parser := MatchFirst [Word is_word_c; sgl_quoted_string].

(** Modelled from the spec: the parenthesized-group wrapper, which
    delegates to the inner grammar. *)
Definition _in_parens (e : Parser) : Parser :=
  And [suppress (Literal "("); e; suppress (Literal ")")].

(** the repetitions [, e] of a delimited list; every round consumes the
    comma, so the length of the input bounds their number *)
Fixpoint delimited_rest (fuel : nat) (e : Parser) (s : string) : list string * string :=
  match fuel with
  | O => ([], s)
  | S fuel' =>
      match Literal "," s with
      | Some (_, s1) =>
          match e s1 with
          | Some (t, s2) =>
              let (ts, r) := delimited_rest fuel' e s2 in ((t ++ ts)%list, r)
          | None => ([], s)
          end
      | None => ([], s)
      end
  end.

(** [pp.DelimitedList]: [e] then any number of [, e] *)
Definition DelimitedList (e : Parser) : Parser := fun s =>
  match e s with
  | Some (t, s1) =>
      let (ts, r) := delimited_rest (String.length s1) e s1 in Some ((t ++ ts)%list, r)
  | None => None
  end.

(** the text up to the parenthesis that closes the group, [depth] groups
    being open inside it *)
Fixpoint nested_close (depth : nat) (s : string) : option (string * string) :=
  match s with
  | EmptyString => None
  | String c s' =>
      let cons r :=
        match r with
        | Some (body, rest) => Some (String c body, rest)
        | None => None
        end in
      if Ascii.eqb c ")" then
        match depth with
        | O => Some (")", s')
        | S d => cons (nested_close d s')
        end
      else if Ascii.eqb c "(" then cons (nested_close (S depth) s')
      else cons (nested_close depth s')
  end.

(** [pp.original_text_for(pp.nested_expr())]: the text of a balanced
    parenthesized group, parentheses included.  Quoted strings inside the
    group are not treated specially here. *)
Definition nested_original_text : Parser := fun s =>
  match skip_ws s with
  | String "(" s' =>
      match nested_close 0 s' with
      | Some (body, r) => Some ([String "(" body], r)
      | None => None
      end
  | _ => None
  end.

End Parse.
Import Parse.

(** ** titan/props.py *)

(** The concrete descriptor classes. *)
Inductive PropClass :=
| BoolProp | IntProp | StringProp | FlagProp | IdentifierProp
| IdentifierListProp | StringListProp | PropSet | TagsProp | DictProp
| EnumProp | EnumListProp | EnumFlagProp | QueryProp | ExpressionProp
| TimeTravelProp | AlertConditionProp | SessionParametersProp
| ColumnsProp | ColumnNamesProp.

(** A value grammar, with whether its named result [prop_value] is a list
    of tokens (a delimited list) or a single token. *)
Record ValueExpr := mkValueExpr {
  ve_parser : Parser;
  ve_list : bool
}.

(** The state of a descriptor object after construction.  The two
    enumeration fields are those of [EnumProp], [EnumListProp] and
    [EnumFlagProp]; the other classes leave them empty. *)
Record PropObj := mkProp {
  cls : PropClass;
  label : option string;
  eq_ : bool;
  alt_tokens : list string;
  parser : Parser;
  saves_list : bool;
  enum_type : EnumType;
  valid_values : list EnumMember
}.

(** the [consume] argument: one word or a list of words *)
Inductive consume_arg :=
| ConsumeStr (s : string)
| ConsumeList (l : list string).

Definition no_enum : EnumType := mkEnum EmptyString [].

Definition some_parsers (l : list (option Parser)) : list Parser :=
  flat_map (fun o => match o with Some p => [p] | None => [] end) l.

(** [Prop.__init__] *)
Definition Prop_init (c : PropClass) (label : option string) (value_expr : ValueExpr)
    (eq parens : bool) (alt_tokens : list string) (consume : consume_arg) : PropObj :=
  let consume :=
    match consume with
    | ConsumeStr s => [s]
    | ConsumeList l => l
    end in
  let consume_expr :=
    match consume with
    | [] => None
    | _ => Some (suppress (And (map (fun tok => Opt (Keyword tok)) consume)))
    end in
  let label_expr :=
    match label with
    | Some (String a l) => Some (suppress (Keywords (String a l)))
    | _ => None
    end in
  let eq_expr := if eq then Some EQUALS else None in
  let value_parser :=
    if parens then _in_parens (ve_parser value_expr) else ve_parser value_expr in
  let expressions :=
    some_parsers [consume_expr; label_expr; consume_expr; eq_expr; Some value_parser] in
  {| cls := c;
     label := label;
     eq_ := eq;
     alt_tokens := map lower alt_tokens;
     parser := And expressions;
     saves_list := ve_list value_expr;
     enum_type := no_enum;
     valid_values := [] |}.

(** [parsed["prop_value"]], a list of tokens flattened by [as_list()] or
    a single token *)
Definition named_result (self : PropObj) (toks : list string) : result value :=
  if saves_list self then Ok (VList (map VStr toks))
  else match toks with
       | t :: _ => Ok (VStr t)
       | [] => Raise (KeyError "prop_value")
       end.

(** [Prop.parse]; [typecheck] is the method of the object's class.
    [parse_string] matches at the start of [sql] and does not look at what
    is left of it. *)
Definition Prop_parse (self : PropObj) (typecheck : PropObj -> value -> result value)
    (sql : string) : result value :=
  match parser self sql with
  | None => Raise ParseException
  | Some (toks, _) =>
      prop_value <- named_result self toks ;;
      typecheck self prop_value
  end.

(** [self.label.upper()] *)
Definition label_upper (self : PropObj) : result string :=
  match label self with
  | Some l => Ok (upper l)
  | None => Raise AttributeError
  end.

(** [self.label] inside an f-string *)
Definition label_str (self : PropObj) : string :=
  match label self with
  | Some l => l
  | None => "None"
  end.

(** ["=" if self.eq else EmptyString] *)
Definition eq_part (self : PropObj) : value :=
  VStr (if eq_ self then "=" else EmptyString).

(** [" = " if self.eq else " "] *)
Definition eq_sep (self : PropObj) : string :=
  if eq_ self then " = " else " ".

(** iteration over a value: the elements of a list, the characters of a
    string, the keys of a dictionary *)
Definition py_iter (v : value) : result (list value) :=
  match v with
  | VList l => Ok l
  | VStr s => Ok (map VStr (chars s))
  | VDict d => Ok (map (fun kv => VStr (fst kv)) d)
  | _ => Raise TypeError
  end.

(** [sep.join(values)]: every element must be a string *)
Definition py_join (sep : string) (values : value) : result string :=
  l <- py_iter values ;;
  ss <- mapM (fun v => match v with VStr s => Ok s | _ => Raise TypeError end) l ;;
  Ok (join sep ss).

(** *** BoolProp *)

Definition BoolProp_new (label : string) (eq parens : bool) (alt_tokens : list string)
    (consume : consume_arg) : PropObj :=
  Prop_init BoolProp (Some label) (mkValueExpr ANY false) eq parens alt_tokens consume.

Definition BoolProp_typecheck (self : PropObj) (prop_value : value) : result value :=
  match prop_value with
  | VStr s =>
      if existsb (String.eqb (lower s)) ["true"; "false"]
      then Ok (VBool (String.eqb (lower s) "true"))
      else Raise (InvalidBoolean s)
  | _ => Raise AttributeError
  end.

Definition BoolProp_render (self : PropObj) (value : Py.value) : result Py.value :=
  match value with
  | VNone => Ok (VStr EmptyString)
  | _ =>
      l <- label_upper self ;;
      Ok (VStr (tidy_sql [VStr l; eq_part self; VStr (upper (py_str value))]))
  end.

Definition BoolProp_parse (self : PropObj) (sql : string) : result value :=
  Prop_parse self BoolProp_typecheck sql.

(** *** IntProp *)

Definition IntProp_render (self : PropObj) (value : Py.value) : result Py.value :=
  match value with
  | VNone => Ok (VStr EmptyString)
  | _ =>
      l <- label_upper self ;;
      Ok (VStr (tidy_sql [VStr l; eq_part self; value]))
  end.

(** *** StringProp *)

Definition StringProp_new (label : string) (eq parens : bool) (alt_tokens : list string)
    (consume : consume_arg) : PropObj :=
  Prop_init StringProp (Some label) (mkValueExpr ANY false) eq parens alt_tokens consume.

Definition StringProp_typecheck (self : PropObj) (prop_value : value) : result value :=
  Ok prop_value.

Definition StringProp_render (self : PropObj) (value : Py.value) : result Py.value :=
  match value with
  | VNone => Ok (VStr EmptyString)
  | _ =>
      l <- label_upper self ;;
      Ok (VStr (tidy_sql [VStr l; eq_part self; VStr ("'" ++ py_str value ++ "'")]))
  end.

Definition StringProp_parse (self : PropObj) (sql : string) : result value :=
  Prop_parse self StringProp_typecheck sql.

(** *** FlagProp *)

(** [self.parser = value_expr("prop_value")] *)
Definition set_parser (self : PropObj) (value_expr : ValueExpr) : PropObj :=
  {| cls := cls self;
     label := label self;
     eq_ := eq_ self;
     alt_tokens := alt_tokens self;
     parser := ve_parser value_expr;
     saves_list := ve_list value_expr;
     enum_type := enum_type self;
     valid_values := valid_values self |}.

(** [FlagProp.__init__]: the base constructor, then the grammar is replaced
    by the bare label *)
Definition FlagProp_new (label : string) : PropObj :=
  set_parser
    (Prop_init FlagProp (Some label) (mkValueExpr ANY false) false false []
       (ConsumeList []))
    (mkValueExpr (Keywords label) false).

Definition FlagProp_typecheck (self : PropObj) (_ : value) : result value :=
  Ok (VBool true).

Definition FlagProp_render (self : PropObj) (value : Py.value) : result Py.value :=
  if truthy value then l <- label_upper self ;; Ok (VStr l)
  else Ok (VStr EmptyString).

Definition FlagProp_parse (self : PropObj) (sql : string) : result value :=
  Prop_parse self FlagProp_typecheck sql.

(** *** IdentifierProp *)

Definition IdentifierProp_render (self : PropObj) (value : Py.value) : result Py.value :=
  match value with
  | VNone => Ok (VStr EmptyString)
  | _ =>
      l <- label_upper self ;;
      Ok (VStr (tidy_sql [VStr l; eq_part self; value]))
  end.

(** *** StringListProp *)

Definition StringListProp_new (label : string) (eq parens : bool)
    (alt_tokens : list string) (consume : consume_arg) : PropObj :=
  Prop_init StringListProp (Some label) (mkValueExpr (DelimitedList ANY) true)
    eq parens alt_tokens consume.

Definition StringListProp_typecheck (self : PropObj) (prop_value : value) : result value :=
  toks <- py_iter prop_value ;;
  stripped <- mapM (fun tok => match tok with
                               | VStr s => Ok (VStr (strip " " s))
                               | _ => Raise AttributeError
                               end) toks ;;
  Ok (VList stripped).

Definition StringListProp_render (self : PropObj) (values : value) : result value :=
  match values with
  | VNone => Ok (VStr EmptyString)
  | _ =>
      value_list <- py_join ", " values ;;
      l <- label_upper self ;;
      Ok (VStr (tidy_sql [VStr l; eq_part self; VStr ("(" ++ value_list ++ ")")]))
  end.

Definition StringListProp_parse (self : PropObj) (sql : string) : result value :=
  Prop_parse self StringListProp_typecheck sql.

(** *** TagsProp *)

Definition TagsProp_new : PropObj :=
  Prop_init TagsProp (Some "TAG")
    (mkValueExpr (DelimitedList (And [ANY; EQUALS; ANY])) true)
    false true [] (ConsumeStr "WITH").

(** the loop [for key in pairs: tags[key] = next(pairs)] over the
    iterator [pairs]; [next] on the exhausted iterator raises
    [StopIteration].  The mapping is from strings: a key that is not a
    string is outside this model and is reported as a [TypeError]. *)
Fixpoint TagsProp_pairs (tags : dict) (pairs : list value) : result dict :=
  match pairs with
  | [] => Ok tags
  | VStr key :: rest =>
      match rest with
      | [] => Raise StopIteration
      | v :: rest' => TagsProp_pairs (dict_set tags key v) rest'
      end
  | _ :: _ => Raise TypeError
  end.

Definition TagsProp_typecheck (self : PropObj) (prop_value : value) : result value :=
  pairs <- py_iter prop_value ;;
  tags <- TagsProp_pairs [] pairs ;;
  Ok (VDict tags).

Definition TagsProp_render (self : PropObj) (value : Py.value) : result Py.value :=
  match value with
  | VNone => Ok (VStr EmptyString)
  | VDict items =>
      let tag_kv_pairs :=
        join ", " (map (fun kv => fst kv ++ " = '" ++ py_str (snd kv) ++ "'") items) in
      Ok (VStr (label_str self ++ " (" ++ tag_kv_pairs ++ ")"))
  | _ => Raise AttributeError
  end.

Definition TagsProp_parse (self : PropObj) (sql : string) : result value :=
  Prop_parse self TagsProp_typecheck sql.

(** *** EnumProp *)

(** the [enum_or_list] argument: an enumeration class, or a list of
    members of one class [T] (the class of its first element) *)
Inductive enum_or_list :=
| AnEnum (T : EnumType)
| AList (T : EnumType) (l : list EnumMember).

Definition enum_type_of (a : enum_or_list) : EnumType :=
  match a with
  | AnEnum T => T
  | AList T _ => T
  end.

(** [set(enum_or_list)], in the order in which it is iterated *)
Definition valid_values_of (a : enum_or_list) : list EnumMember :=
  match a with
  | AnEnum T => enum_members T
  | AList _ l => l
  end.

Definition set_enum (self : PropObj) (a : enum_or_list) : PropObj :=
  {| cls := cls self;
     label := label self;
     eq_ := eq_ self;
     alt_tokens := alt_tokens self;
     parser := parser self;
     saves_list := saves_list self;
     enum_type := enum_type_of a;
     valid_values := valid_values_of a |}.

(** [pp.MatchFirst([Keywords(val.value) for val in self.valid_values])] *)
Definition enum_values (a : enum_or_list) : Parser :=
  MatchFirst (map (fun val => Keywords (member_value val)) (valid_values_of a)).

Definition EnumProp_new (label : string) (a : enum_or_list) (eq parens : bool)
    (alt_tokens : list string) (consume : consume_arg) : PropObj :=
  set_enum
    (Prop_init EnumProp (Some label)
       (mkValueExpr (MatchFirst [enum_values a; ANY]) false)
       eq parens alt_tokens consume)
    a.

Definition EnumProp_typecheck (self : PropObj) (prop_value : value) : result value :=
  prop_value <- enum_call (enum_type self) prop_value ;;
  if negb (member_in prop_value (valid_values self))
  then Raise (InvalidValue prop_value (valid_values self))
  else Ok (VEnum prop_value).

Definition EnumProp_render (self : PropObj) (value : Py.value) : result Py.value :=
  match value with
  | VNone => Ok (VStr EmptyString)
  | _ => Ok (VStr (label_str self ++ eq_sep self ++ py_str value))
  end.

Definition EnumProp_parse (self : PropObj) (sql : string) : result value :=
  Prop_parse self EnumProp_typecheck sql.

(** *** EnumListProp *)

Definition EnumListProp_new (label : string) (a : enum_or_list) (eq parens : bool)
    (alt_tokens : list string) (consume : consume_arg) : PropObj :=
  set_enum
    (Prop_init EnumListProp (Some label)
       (mkValueExpr (DelimitedList (MatchFirst [enum_values a; ANY])) true)
       eq parens alt_tokens consume)
    a.

(** the loop that validates the converted members one by one *)
Fixpoint EnumListProp_validate (allowed vs : list EnumMember) : result unit :=
  match vs with
  | [] => Ok tt
  | v :: vs' =>
      if negb (member_in v allowed) then Raise (InvalidValue v allowed)
      else EnumListProp_validate allowed vs'
  end.

Definition EnumListProp_typecheck (self : PropObj) (prop_values : value) : result value :=
  raw <- py_iter prop_values ;;
  prop_values <- mapM (enum_call (enum_type self)) raw ;;
  _ <- EnumListProp_validate (valid_values self) prop_values ;;
  Ok (VList (map VEnum prop_values)).

Definition EnumListProp_render (self : PropObj) (values : value) : result value :=
  match values with
  | VNone => Ok (VStr EmptyString)
  | _ =>
      n <- py_len values ;;
      if Nat.eqb n 0 then Ok (VStr EmptyString)
      else Ok (VStr (label_str self ++ eq_sep self ++ "(" ++ py_str values ++ ")"))
  end.

(** *** EnumFlagProp *)

Definition EnumFlagProp_render (self : PropObj) (value : Py.value) : result Py.value :=
  match value with
  | VNone => Ok (VStr EmptyString)
  | _ => Ok value
  end.

(** *** QueryProp, ExpressionProp, TimeTravelProp, AlertConditionProp *)

Definition QueryProp_render (self : PropObj) (value : Py.value) : result Py.value :=
  match value with
  | VNone => Ok (VStr EmptyString)
  | _ => Ok (VStr (label_str self ++ " " ++ py_str value))
  end.

Definition ExpressionProp_render (self : PropObj) (value : Py.value) : result Py.value :=
  match value with
  | VNone => Ok (VStr EmptyString)
  | _ => Ok (VStr (label_str self ++ " " ++ py_str value))
  end.

Definition TimeTravelProp_render (self : PropObj) (value : Py.value) : result Py.value :=
  match value with
  | VNone => Ok (VStr EmptyString)
  | _ => Ok (VStr (label_str self ++ " (" ++ py_str value ++ ")"))
  end.

Definition AlertConditionProp_render (self : PropObj) (value : Py.value) : result Py.value :=
  match value with
  | VNone => Ok (VStr EmptyString)
  | _ => Ok (VStr ("IF(EXISTS( " ++ py_str value ++ " ))"))
  end.

(** *** ColumnsProp *)

(** one round of the loop over the columns *)
Definition ColumnsProp_column (col : value) : result string :=
  match col with
  | VDict col =>
      comment <-
        (if truthy (dict_get col "comment")
         then c <- dict_getitem col "comment" ;; Ok (" COMMENT '" ++ py_str c ++ "'")
         else Ok EmptyString) ;;
      name <- dict_getitem col "name" ;;
      data_type <- dict_getitem col "data_type" ;;
      Ok (py_str name ++ " " ++ py_str data_type ++ comment)
  | _ => Raise AttributeError
  end.

Definition ColumnsProp_new : PropObj :=
  Prop_init ColumnsProp None (mkValueExpr nested_original_text false)
    false false [] (ConsumeList []).

Definition ColumnsProp_render (self : PropObj) (value : Py.value) : result Py.value :=
  match value with
  | VNone => Ok (VStr "()")
  | _ =>
      cols <- py_iter value ;;
      columns <- mapM ColumnsProp_column cols ;;
      Ok (VStr ("(" ++ join ", " columns ++ ")"))
  end.

(** *** Method dispatch

    [prop.render(value)] on an object of any class.  The classes that do
    not override [render] inherit the one of [Prop], which raises
    [NotImplementedError]; so does [IdentifierListProp.render]. *)
Definition render (self : PropObj) (value : Py.value) : result Py.value :=
  match cls self with
  | BoolProp => BoolProp_render self value
  | IntProp => IntProp_render self value
  | StringProp => StringProp_render self value
  | FlagProp => FlagProp_render self value
  | IdentifierProp => IdentifierProp_render self value
  | IdentifierListProp => Raise NotImplementedError
  | StringListProp => StringListProp_render self value
  | PropSet => Raise NotImplementedError
  | TagsProp => TagsProp_render self value
  | DictProp => Raise NotImplementedError
  | EnumProp => EnumProp_render self value
  | EnumListProp => EnumListProp_render self value
  | EnumFlagProp => EnumFlagProp_render self value
  | QueryProp => QueryProp_render self value
  | ExpressionProp => ExpressionProp_render self value
  | TimeTravelProp => TimeTravelProp_render self value
  | AlertConditionProp => AlertConditionProp_render self value
  | SessionParametersProp => Raise NotImplementedError
  | ColumnsProp => ColumnsProp_render self value
  | ColumnNamesProp => Raise NotImplementedError
  end.

(** the classes whose [render] is implemented *)
Definition implements_render (c : PropClass) : bool :=
  match c with
  | IdentifierListProp | PropSet | DictProp | SessionParametersProp
  | ColumnNamesProp => false
  | _ => true
  end.

(** *** Props: the named collection *)

Record PropsObj := mkProps {
  props : list (string * PropObj);
  name : option string;
  start_token : option string
}.

(** the list [rendered] at the end of the loop of [Props.render] *)
Fixpoint Props_rendered (props : list (string * PropObj)) (data : dict)
    : result (list value) :=
  match props with
  | [] => Ok []
  | (prop_kwarg, prop) :: rest =>
      let value := dict_get data prop_kwarg in
      match value with
      | VNone => Props_rendered rest data
      | _ =>
          r <- render prop value ;;
          rendered <- Props_rendered rest data ;;
          Ok (r :: rendered)
      end
  end.

(** [Props.render] *)
Definition Props_render (self : PropsObj) (data : dict) : result string :=
  rendered <- Props_rendered (props self) data ;;
  Ok (tidy_sql rendered).

(** ** Auxiliary notions for the statements *)

(** A label whose words, as [Keywords] splits them, are not empty and do
    not begin with white space. *)
Definition word_ok (w : string) : bool :=
  match w with
  | String c _ => negb (is_space c)
  | EmptyString => false
  end.

Definition wf_label (l : string) : bool := forallb word_ok (split " " l).

(** text that can stand between two single quotes on one line *)
Definition plain_text (s : string) : bool :=
  forallb is_quoted_body_c (list_ascii_of_string s).

(** what may follow a keyword: the end of the input or a character that
    is not an identifier character *)
Definition boundary (r : string) : bool :=
  match r with
  | String c _ => negb (is_ident_c c)
  | EmptyString => true
  end.

(** a grammar element that never returns more input than it was given *)
Definition shrinking (e : Parser) : Prop :=
  forall s t r, e s = Some (t, r) -> String.length r <= String.length s.

Definition is_None (v : value) : bool :=
  match v with
  | VNone => true
  | _ => false
  end.

(** the descriptors of a collection whose key the record populates, with
    the value found there, in the order of the collection *)
Definition populated (props : list (string * PropObj)) (data : dict)
    : list (PropObj * value) :=
  flat_map (fun kp =>
              let v := dict_get data (fst kp) in
              if is_None v then [] else [(snd kp, v)]) props.

(** the number of keys of the collection that the record populates *)
Definition populated_count (props : list (string * PropObj)) (data : dict) : nat :=
  List.length (filter (fun kp => negb (is_None (dict_get data (fst kp)))) props).

Definition nonempty_fragment (v : value) : bool :=
  negb (String.eqb (py_str v) EmptyString).

(** A collection and two records with the same entries in two orders. *)
Definition example_props : list (string * PropObj) :=
  [("transient", FlagProp_new "TRANSIENT");
   ("auto_resume", BoolProp_new "AUTO_RESUME" true false [] (ConsumeList []));
   ("comment", StringProp_new "COMMENT" true false [] (ConsumeList []))].

Definition example_data : dict :=
  [("auto_resume", VBool true); ("transient", VBool false)].

Definition example_data_swapped : dict :=
  [("transient", VBool false); ("auto_resume", VBool true)].

(** An enumeration to run the enum descriptors on. *)
Definition RED : EnumMember := mkMember "Color" "RED" "RED".
Definition BLUE : EnumMember := mkMember "Color" "BLUE" "BLUE".
Definition GREEN : EnumMember := mkMember "Color" "GREEN" "GREEN".
Definition Color : EnumType := mkEnum "Color" [RED; BLUE; GREEN].

(** ** The other methods of titan/props.py *)

(** [s.lstrip(chars)], [s.rstrip(chars)] and [s.strip(chars)], the set
    [chars] given by its membership test *)
Fixpoint lstrip_if (p : ascii -> bool) (s : string) : string :=
  match s with
  | String c s' => if p c then lstrip_if p s' else s
  | EmptyString => EmptyString
  end.

Fixpoint rstrip_if (p : ascii -> bool) (s : string) : string :=
  match s with
  | EmptyString => EmptyString
  | String c s' =>
      match rstrip_if p s' with
      | EmptyString => if p c then EmptyString else String c EmptyString
      | r => String c r
      end
  end.

Definition strip_if (p : ascii -> bool) (s : string) : string :=
  rstrip_if p (lstrip_if p s).

(** the characters that [str.strip()] removes when it has no argument *)
Definition is_py_space (c : ascii) : bool :=
  let n := N_of_ascii c in
  ((N.leb 9 n && N.leb n 13) || (N.leb 28 n && N.leb n 32)
   || N.eqb n 133 || N.eqb n 160)%bool.

(** the characters of [strip("()")] *)
Definition is_paren (c : ascii) : bool := (Ascii.eqb c "(" || Ascii.eqb c ")")%bool.

(** [Props.__getitem__] *)
Definition Props_getitem (self : PropsObj) (key : string) : result PropObj :=
  match find (fun kp => String.eqb (fst kp) key) (props self) with
  | Some kp => Ok (snd kp)
  | None => Raise (KeyError key)
  end.

(** [IdentifierProp.typecheck] *)
Definition IdentifierProp_typecheck (self : PropObj) (prop_value : value) : result value :=
  s <- py_join "." prop_value ;; Ok (VStr s).

(** [IdentifierListProp.typecheck] *)
Definition IdentifierListProp_typecheck (self : PropObj) (prop_values : value)
    : result value :=
  l <- py_iter prop_values ;;
  ids <- mapM (py_join ".") l ;;
  Ok (VList (map VStr ids)).

(** [DictProp.__init__] *)
Definition DictProp_new (label : string) (eq parens : bool) (alt_tokens : list string)
    (consume : consume_arg) : PropObj :=
  Prop_init DictProp (Some label)
    (mkValueExpr (DelimitedList (And [ANY; EQUALS; ANY])) true)
    eq parens alt_tokens consume.

(** [DictProp.typecheck], the loop of [TagsProp.typecheck] word for word *)
Definition DictProp_typecheck (self : PropObj) (prop_value : value) : result value :=
  pairs <- py_iter prop_value ;;
  values <- TagsProp_pairs [] pairs ;;
  Ok (VDict values).

(** [ExpressionProp.typecheck] *)
Definition ExpressionProp_typecheck (self : PropObj) (prop_value : value) : result value :=
  match prop_value with
  | VStr s => Ok (VStr (strip_if is_py_space s))
  | _ => Raise AttributeError
  end.

(** [AlertConditionProp.typecheck] *)
Definition AlertConditionProp_typecheck (self : PropObj) (prop_value : value)
    : result value :=
  match prop_value with
  | VStr s => Ok (VStr (strip_if is_py_space (strip_if is_paren s)))
  | _ => Raise AttributeError
  end.

(** the alternating token list [k1, v1, k2, v2, ...] of a list of pairs *)
Definition flatten_pairs (kvs : list (string * string)) : list value :=
  flat_map (fun kv => [VStr (fst kv); VStr (snd kv)]) kvs.

Definition str_items (kvs : list (string * string)) : dict :=
  map (fun kv => (fst kv, VStr (snd kv))) kvs.

(** a column record with the keys that [ColumnsProp.render] reads
    unconditionally *)
Definition column_ok (col : dict) : bool :=
  match dict_lookup col "name", dict_lookup col "data_type" with
  | Some _, Some _ => true
  | _, _ => false
  end.

(** text without the character [sep] *)
Definition no_char (sep : ascii) (w : string) : bool :=
  forallb (fun c => negb (Ascii.eqb c sep)) (list_ascii_of_string w).

(** ** Notions for the round trips and for trailing text *)

(** text of ASCII characters, on which [upper] and [lower] are
    [str.upper] and [str.lower] *)
Definition ascii_text (s : string) : bool :=
  forallb (fun c => N.ltb (N_of_ascii c) 128) (list_ascii_of_string s).

(** the words of the [consume] argument, as [Prop.__init__] takes them *)
Definition consume_words (consume : consume_arg) : list string :=
  match consume with
  | ConsumeStr s => [s]
  | ConsumeList l => l
  end.

(** none of the filler words is matched at the start of [s] *)
Definition fillers_skipped (words : list string) (s : string) : bool :=
  forallb (fun tok => match Keyword tok s with Some _ => false | None => true end) words.

(** [str(v).upper()] of a boolean *)
Definition bool_text (v : bool) : string := if v then "TRUE" else "FALSE".

(** the clause that [BoolProp.render] writes *)
Definition bool_clause (lbl : string) (eq v : bool) : string :=
  tidy_sql [VStr (upper lbl); VStr (if eq then "=" else EmptyString); VStr (bool_text v)].

(** what is left of that clause after its label *)
Definition after_label (lbl : string) (eq v : bool) : string :=
  match lbl with
  | EmptyString => bool_clause lbl eq v
  | _ => (if eq then " = " else " ") ++ bool_text v
  end.








(** a bare word *)
Definition is_word (w : string) : bool :=
  match w with
  | EmptyString => false
  | _ => forallb is_word_c (list_ascii_of_string w)
  end.

(** ** Strings, keywords and the head of a rendered clause *)

Ltac ascii_cases c := destruct c as [[] [] [] [] [] [] [] []]; reflexivity.

Lemma upper_char_idem c : upper_char (upper_char c) = upper_char c.
Proof. ascii_cases c. Qed.

Lemma is_space_upper c : is_space (upper_char c) = is_space c.
Proof. ascii_cases c. Qed.

Lemma eqb_space_upper c : Ascii.eqb (upper_char c) " " = Ascii.eqb c " ".
Proof. ascii_cases c. Qed.

Lemma upper_idem s : upper (upper s) = upper s.
Proof. induction s as [|c s IH]; simpl; [reflexivity | now rewrite upper_char_idem, IH]. Qed.

Lemma append_assoc (a b c : string) : (a ++ b) ++ c = a ++ b ++ c.
Proof. induction a as [|x a IH]; simpl; [reflexivity | now rewrite IH]. Qed.

Lemma append_empty_r (a : string) : a ++ EmptyString = a.
Proof. induction a as [|x a IH]; simpl; [reflexivity | now rewrite IH]. Qed.

Lemma split_nonempty sep s : split sep s <> [].
Proof.
  destruct s as [|c s]; simpl; [discriminate|].
  destruct (Ascii.eqb c sep); [discriminate|].
  destruct (split sep s); discriminate.
Qed.

Lemma join_split s : join " " (split " " s) = s.
Proof.
  unfold join. induction s as [|c s IH]; [reflexivity|].
  simpl split. destruct (Ascii.eqb_spec c " ") as [->|Hc].
  - pose proof (split_nonempty " " s) as Hne.
    destruct (split " " s) as [|w ws] eqn:E; [contradiction|].
    change (String.concat " " (EmptyString :: w :: ws))
      with (EmptyString ++ " " ++ String.concat " " (w :: ws)).
    now rewrite IH.
  - destruct (split " " s) as [|w ws] eqn:E.
    + now destruct (split_nonempty " " s).
    + destruct ws as [|w' ws]; simpl in *; now rewrite <- IH.
Qed.

Lemma split_upper s : split " " (upper s) = map upper (split " " s).
Proof.
  induction s as [|c s IH]; [reflexivity|].
  simpl. rewrite eqb_space_upper, IH.
  destruct (Ascii.eqb c " "); [reflexivity|].
  pose proof (split_nonempty " " s) as Hne.
  destruct (split " " s); [contradiction | reflexivity].
Qed.

(** *** A keyword against text that differs from it in case only *)

Lemma caseless_prefix_eq w : forall t r,
  upper t = upper w -> caseless_prefix w (t ++ r) = Some r.
Proof.
  induction w as [|c w IH]; intros [|d t] r H; simpl in H; try discriminate.
  - reflexivity.
  - injection H as Hc Ht. simpl. rewrite Hc, Ascii.eqb_refl. now apply IH.
Qed.

Lemma skip_ws_caseless w t r :
  word_ok w = true -> upper t = upper w -> skip_ws (t ++ r) = t ++ r.
Proof.
  destruct w as [|c w]; [discriminate|]. destruct t as [|d t]; [discriminate|].
  simpl. intros Hc [= Hd _].
  rewrite <- (is_space_upper d), Hd, is_space_upper.
  now destruct (is_space c).
Qed.

Lemma Keyword_caseless w t r :
  word_ok w = true -> upper t = upper w -> boundary r = true ->
  Keyword w (t ++ r) = Some ([w], r).
Proof.
  intros Hw Ht Hr. unfold Keyword.
  rewrite (skip_ws_caseless _ _ _ Hw Ht), (caseless_prefix_eq _ _ _ Ht).
  destruct w; [discriminate|].
  destruct r as [|c r]; [reflexivity|].
  simpl in Hr. now destruct (is_ident_c c).
Qed.

Lemma Keyword_skip_space w s : Keyword w (String " " s) = Keyword w s.
Proof. reflexivity. Qed.

Lemma Keyword_token kw s t r : Keyword kw s = Some (t, r) -> t = [kw].
Proof.
  unfold Keyword. destruct kw; [discriminate|].
  destruct (caseless_prefix _ _) as [[|c r']|]; [| |discriminate].
  - now intros [= <- _].
  - destruct (is_ident_c c); [discriminate | now intros [= <- _]].
Qed.

Lemma And_keywords_tokens ws : forall s ts r,
  And (map Keyword ws) s = Some (ts, r) -> ts = ws.
Proof.
  induction ws as [|w ws IH]; intros s ts r H; simpl in H.
  - now injection H as <- _.
  - destruct (Keyword w s) as [[t r1]|] eqn:E; [|discriminate].
    destruct (And (map Keyword ws) r1) as [[ts' r2]|] eqn:E'; [|discriminate].
    injection H as <- _.
    now rewrite (Keyword_token _ _ _ _ E), (IH _ _ _ E').
Qed.

Lemma And_keywords_caseless ws : forall ts r,
  ws <> [] -> forallb word_ok ws = true -> map upper ts = map upper ws ->
  boundary r = true ->
  And (map Keyword ws) (join " " ts ++ r) = Some (ws, r).
Proof.
  induction ws as [|w ws IH]; [congruence|].
  intros [|t ts] r _ Hall Hts Hr; [discriminate|].
  simpl in Hall. apply andb_true_iff in Hall as [Hw Hws].
  injection Hts as Ht Hts.
  destruct ws as [|w' ws].
  - destruct ts; [|discriminate]. simpl.
    rewrite (Keyword_caseless _ _ _ Hw Ht Hr). reflexivity.
  - destruct ts as [|t' ts]; [discriminate|].
    change (join " " (t :: t' :: ts) ++ r)
      with ((t ++ " " ++ join " " (t' :: ts)) ++ r).
    rewrite append_assoc.
    change ((" " ++ join " " (t' :: ts)) ++ r)
      with (String " " (join " " (t' :: ts) ++ r)).
    change (map Keyword (w :: w' :: ws)) with (Keyword w :: map Keyword (w' :: ws)).
    cbv beta iota delta [And]. fold And.
    rewrite (Keyword_caseless w t (String " " (join " " (t' :: ts) ++ r)) Hw Ht eq_refl).
    specialize (IH (t' :: ts) r ltac:(discriminate) Hws Hts Hr).
    change (map Keyword (w' :: ws)) with (Keyword w' :: map Keyword ws) in *.
    cbv beta iota delta [And] in IH |- *. fold And in IH |- *.
    rewrite Keyword_skip_space.
    destruct (Keyword w' _) as [[x r1]|]; [|discriminate].
    destruct (And (map Keyword ws) r1) as [[xs r2]|]; [|discriminate].
    injection IH as <- <-. reflexivity.
Qed.

Lemma Keywords_caseless l t r :
  wf_label l = true -> upper t = upper l -> boundary r = true ->
  Keywords l (t ++ r) = Some ([l], r).
Proof.
  intros Hl Ht Hr. unfold Keywords.
  rewrite <- (join_split t).
  rewrite (And_keywords_caseless (split " " l) (split " " t) r
             (split_nonempty _ _) Hl).
  - now rewrite join_split.
  - now rewrite <- !split_upper, Ht.
  - exact Hr.
Qed.

Lemma Keywords_rendered l c r :
  wf_label l = true -> is_ident_c c = false ->
  Keywords l (upper l ++ String c r) = Some ([l], String c r).
Proof.
  intros Hl Hc. apply Keywords_caseless; [exact Hl | apply upper_idem |].
  simpl. now rewrite Hc.
Qed.

Lemma Keywords_skip_space l s : Keywords l (String " " s) = Keywords l s.
Proof.
  unfold Keywords. pose proof (split_nonempty " " l) as Hne.
  destruct (split " " l) as [|w ws]; [contradiction | reflexivity].
Qed.

Lemma Keywords_token l s t r : Keywords l s = Some (t, r) -> t = [l].
Proof.
  unfold Keywords.
  destruct (And (map Keyword (split " " l)) s) as [[ts r']|] eqn:E; [|discriminate].
  intros [= <- _]. now rewrite (And_keywords_tokens _ _ _ _ E), join_split.
Qed.

Lemma wf_label_nonempty l : wf_label l = true -> exists a l', l = String a l'.
Proof. destruct l as [|a l']; [discriminate | eauto]. Qed.

Lemma tidy_sql_3 (L V : string) (eq : bool) :
  L <> EmptyString -> V <> EmptyString ->
  tidy_sql [VStr L; VStr (if eq then "=" else EmptyString); VStr V]
  = L ++ (if eq then " = " else " ") ++ V.
Proof.
  intros HL HV. unfold tidy_sql. simpl map.
  unfold filter.
  destruct (String.eqb_spec L EmptyString) as [|_]; [contradiction|].
  destruct (String.eqb_spec V EmptyString) as [|_]; [contradiction|].
  destruct eq; reflexivity.
Qed.

(** The grammar of a descriptor without parentheses and filler words, on
    a clause that begins with its label in upper case: what is left for the
    value grammar is the text after the label and the equals sign. *)
Lemma parser_rendered c l ve (eq : bool) alts X :
  wf_label l = true ->
  parser (Prop_init c (Some l) ve eq false alts (ConsumeList []))
    (upper l ++ (if eq then " = " else " ") ++ X)
  = match ve_parser ve (String " " X) with
    | Some (t, r) => Some (t, r)
    | None => None
    end.
Proof.
  intros Hl. destruct (wf_label_nonempty _ Hl) as (a & l' & ->).
  unfold Prop_init, parser, some_parsers, flat_map.
  destruct eq.
  - change (upper (String a l') ++ " = " ++ X)
      with (upper (String a l') ++ String " " ("= " ++ X)).
    cbn [app And]. unfold suppress at 1.
    rewrite (Keywords_rendered _ " " _ Hl eq_refl).
    change (EQUALS (String " " ("= " ++ X))) with (Some (@nil string, String " " X)).
    cbv beta iota.
    destruct (ve_parser ve (String " " X)) as [[t r]|]; cbn; [|reflexivity].
    now rewrite app_nil_r.
  - change (upper (String a l') ++ " " ++ X)
      with (upper (String a l') ++ String " " X).
    cbn [app And]. unfold suppress at 1.
    rewrite (Keywords_rendered _ " " _ Hl eq_refl).
    cbv beta iota.
    destruct (ve_parser ve (String " " X)) as [[t r]|]; cbn; [|reflexivity].
    now rewrite app_nil_r.
Qed.

(** *** The fuel of a delimited list *)

Lemma skip_ws_length s : String.length (skip_ws s) <= String.length s.
Proof.
  induction s as [|c s IH]; [reflexivity|].
  simpl. destruct (is_space c); simpl; lia.
Qed.

Lemma comma_length s x s1 :
  Literal "," s = Some (x, s1) -> String.length s1 < String.length s.
Proof.
  unfold Literal. pose proof (skip_ws_length s) as H.
  destruct (skip_ws s) as [|c r]; [discriminate|].
  cbn [exact_prefix]. destruct (Ascii.eqb "," c); [|discriminate].
  intros [= _ <-]. simpl in H. lia.
Qed.

(** The fuel that [DelimitedList] gives is enough: more fuel reads the
    same list. *)
Lemma delimited_rest_enough_fuel e :
  shrinking e ->
  forall n m s, String.length s <= n -> String.length s <= m ->
  delimited_rest n e s = delimited_rest m e s.
Proof.
  intros He. induction n as [|n IH]; intros m s Hn Hm.
  - destruct s; [|simpl in Hn; lia]. now destruct m.
  - destruct m as [|m].
    + destruct s; [reflexivity | simpl in Hm; lia].
    + simpl. destruct (Literal "," s) as [[x s1]|] eqn:E; [|reflexivity].
      apply comma_length in E.
      destruct (e s1) as [[t s2]|] eqn:E2; [|reflexivity].
      apply He in E2. rewrite (IH m s2); [reflexivity | lia | lia].
Qed.

Lemma span_length p s : String.length (snd (span p s)) <= String.length s.
Proof.
  induction s as [|c s IH]; [reflexivity|].
  simpl. destruct (p c); [|reflexivity].
  destruct (span p s); simpl in *. lia.
Qed.

Lemma ANY_shrinking : shrinking ANY.
Proof.
  intros s t r. unfold ANY, MatchFirst, Word, sgl_quoted_string.
  pose proof (skip_ws_length s) as Hs.
  pose proof (span_length is_word_c (skip_ws s)) as Hw.
  destruct (span is_word_c (skip_ws s)) as [[|c w] r1].
  - destruct (skip_ws s) as [|c s']; [discriminate|].
    destruct (Ascii.eqb_spec c "'") as [->|Hc].
    + pose proof (span_length is_quoted_body_c s') as Hq.
      destruct (span is_quoted_body_c s') as [body [|d r2]]; [discriminate|].
      destruct (Ascii.eqb_spec d "'") as [->|Hd].
      * intros [= _ <-]. simpl in *. lia.
      * destruct d as [[] [] [] [] [] [] [] []]; try discriminate. congruence.
    + destruct c as [[] [] [] [] [] [] [] []]; try discriminate. congruence.
  - intros [= _ <-]. simpl in *. lia.
Qed.

(** ** Enumerations *)

Lemma member_eqb_refl m : member_eqb m m = true.
Proof. unfold member_eqb. now rewrite !String.eqb_refl. Qed.

Lemma In_member_in m l : In m l -> member_in m l = true.
Proof.
  intros H. apply existsb_exists. exists m. split; [exact H | apply member_eqb_refl].
Qed.

Lemma find_member_in (f : EnumMember -> bool) l m :
  find f l = Some m -> member_in m l = true.
Proof. intros H. apply In_member_in. now apply find_some in H. Qed.

Lemma enum_call_member T raw m :
  enum_call T raw = Ok m -> member_in m (enum_members T) = true.
Proof.
  destruct raw; simpl; try discriminate.
  - destruct (find _ _) eqn:E; [|discriminate].
    intros [= <-]. eapply find_member_in, E.
  - destruct (member_in m0 (enum_members T)) eqn:E; [|discriminate].
    now intros [= <-].
Qed.

(** the values of an enumeration class are distinct, so a value finds its
    member *)
Lemma enum_call_value T m :
  NoDup (map member_value (enum_members T)) -> In m (enum_members T) ->
  enum_call T (VStr (member_value m)) = Ok m.
Proof.
  unfold enum_call. induction (enum_members T) as [|x l IH]; intros Hnd Hin.
  - destruct Hin.
  - simpl in *. inversion Hnd as [|? ? Hx Hl]; subst.
    destruct (String.eqb_spec (member_value x) (member_value m)) as [E|E].
    + destruct Hin as [->|Hin]; [reflexivity|].
      exfalso. apply Hx. rewrite E. now apply in_map.
    + destruct Hin as [->|Hin]; [congruence|]. now apply IH.
Qed.

Lemma MatchFirst_keywords S s : forall m r,
  In m S -> Keywords (member_value m) s = Some ([member_value m], r) ->
  exists m' r', In m' S
    /\ MatchFirst (map (fun val => Keywords (member_value val)) S) s
       = Some ([member_value m'], r').
Proof.
  induction S as [|x S IH]; intros m r Hin Hk; [destruct Hin|].
  simpl. destruct (Keywords (member_value x) s) as [[t r1]|] eqn:E.
  - exists x, r1. split; [now left|].
    now rewrite (Keywords_token _ _ _ _ E).
  - destruct Hin as [->|Hin]; [congruence|].
    destruct (IH m r Hin Hk) as (m' & r' & Hin' & H).
    exists m', r'. split; [now right | exact H].
Qed.

(** X19: a token that is a member's value in any case is parsed to a
    member of the allowed list. *)
Lemma EnumProp_parse_caseless lbl a (eq : bool) alts m t :
  wf_label lbl = true -> wf_label (member_value m) = true ->
  NoDup (map member_value (enum_members (enum_type_of a))) ->
  incl (valid_values_of a) (enum_members (enum_type_of a)) ->
  In m (valid_values_of a) -> upper t = upper (member_value m) ->
  exists m', In m' (valid_values_of a)
    /\ EnumProp_parse (EnumProp_new lbl a eq false alts (ConsumeList []))
         (upper lbl ++ (if eq then " = " else " ") ++ t)
       = Ok (VEnum m').
Proof.
  intros Hl Hv Hnd Hincl Hin Ht.
  assert (Hk : Keywords (member_value m) (String " " t)
               = Some ([member_value m], EmptyString)).
  { rewrite Keywords_skip_space. rewrite <- (append_empty_r t) at 1.
    now apply Keywords_caseless. }
  destruct (MatchFirst_keywords _ _ _ _ Hin Hk) as (m' & r' & Hin' & HM).
  exists m'. split; [exact Hin'|].
  unfold EnumProp_parse, Prop_parse, EnumProp_new, set_enum.
  cbn [parser saves_list].
  rewrite (parser_rendered _ _ _ _ _ _ Hl).
  cbn [ve_parser MatchFirst]. unfold enum_values at 1. rewrite HM.
  unfold named_result. cbn [saves_list Prop_init ve_list bind].
  unfold EnumProp_typecheck. cbn [enum_type valid_values].
  rewrite (enum_call_value _ _ Hnd (Hincl _ Hin')). cbn [bind].
  now rewrite (In_member_in _ _ Hin').
Qed.

(** A token that is no value of the enumeration class is refused by the
    conversion to the class: the error has the token and the name of the
    class. *)
Lemma EnumProp_typecheck_unknown self s :
  find (fun m => String.eqb (member_value m) s) (enum_members (enum_type self)) = None ->
  EnumProp_typecheck self (VStr s)
  = Raise (NotAValidMember (VStr s) (enum_qualname (enum_type self))).
Proof. intros H. unfold EnumProp_typecheck, enum_call. now rewrite H. Qed.

(** For a descriptor built from an enumeration class, the error that lists
    the allowed members is never raised: a token is either a member, or
    refused by the conversion to the class. *)
Lemma EnumProp_class_never_lists_allowed lbl T eq parens alts consume raw v allowed :
  EnumProp_typecheck (EnumProp_new lbl (AnEnum T) eq parens alts consume) raw
  <> Raise (InvalidValue v allowed).
Proof.
  unfold EnumProp_typecheck, EnumProp_new, set_enum. cbn [enum_type valid_values
    enum_type_of valid_values_of].
  destruct (enum_call T raw) as [m|e] eqn:E; cbn [bind].
  - rewrite (enum_call_member _ _ _ E). discriminate.
  - destruct raw; simpl in E; try (injection E as <-; discriminate).
    + destruct (find _ _); [discriminate | injection E as <-; discriminate].
    + destruct (member_in _ _); [discriminate | injection E as <-; discriminate].
Qed.

(** ** The named collection *)

Section Collection.

Variable data : dict.

Lemma Props_rendered_cons_None k p rest :
  dict_get data k = VNone ->
  Props_rendered ((k, p) :: rest) data = Props_rendered rest data.
Proof. intros H. simpl. now rewrite H. Qed.

Lemma Props_rendered_cons_value k p rest :
  dict_get data k <> VNone ->
  Props_rendered ((k, p) :: rest) data
  = (r <- render p (dict_get data k) ;;
     rendered <- Props_rendered rest data ;;
     Ok (r :: rendered)).
Proof. intros H. simpl. destruct (dict_get data k); congruence. Qed.

Lemma is_None_spec v : is_None v = true <-> v = VNone.
Proof. destruct v; simpl; split; congruence. Qed.

Lemma Props_rendered_mapM props :
  Props_rendered props data
  = mapM (fun pv => render (fst pv) (snd pv)) (populated props data).
Proof.
  induction props as [|[k p] rest IH]; [reflexivity|].
  unfold populated in *. cbn [flat_map fst snd].
  destruct (is_None (dict_get data k)) eqn:E.
  - apply is_None_spec in E. now rewrite (Props_rendered_cons_None _ _ _ E).
  - rewrite Props_rendered_cons_value.
    + cbn [app mapM fst snd]. now rewrite IH.
    + intros H. apply is_None_spec in H. congruence.
Qed.

Lemma populated_length props :
  List.length (populated props data) = populated_count props data.
Proof.
  unfold populated, populated_count.
  induction props as [|[k p] rest IH]; [reflexivity|].
  cbn [flat_map filter fst snd].
  destruct (is_None (dict_get data k)); simpl; now rewrite IH.
Qed.

Lemma Props_rendered_app a b :
  Props_rendered (a ++ b) data
  = (x <- Props_rendered a data ;;
     y <- Props_rendered b data ;;
     Ok (x ++ y)%list).
Proof.
  induction a as [|[k p] a IH].
  - simpl. now destruct (Props_rendered b data).
  - rewrite <- app_comm_cons.
    destruct (is_None (dict_get data k)) eqn:E.
    + apply is_None_spec in E. now rewrite !(Props_rendered_cons_None _ _ _ E).
    + assert (H : dict_get data k <> VNone)
        by (intros H; apply is_None_spec in H; congruence).
      rewrite !(Props_rendered_cons_value _ _ _ H), IH.
      destruct (render p (dict_get data k)); [|reflexivity].
      cbn [bind].
      destruct (Props_rendered a data); [|reflexivity].
      cbn [bind].
      now destruct (Props_rendered b data).
Qed.

End Collection.

Lemma mapM_Forall2 {A B} (f : A -> result B) l r :
  mapM f l = Ok r ->
  List.length r = List.length l /\ Forall2 (fun a b => f a = Ok b) l r.
Proof.
  revert r. induction l as [|a l IH]; intros r H; simpl in H.
  - injection H as <-. split; [reflexivity | constructor].
  - destruct (f a) as [b|] eqn:Ea; [|discriminate].
    cbn [bind] in H. destruct (mapM f l) as [bs|]; [|discriminate].
    cbn [bind] in H. injection H as <-.
    destruct (IH bs eq_refl) as [Hlen Hall].
    split; [simpl; now rewrite Hlen | now constructor].
Qed.

Lemma dict_lookup_perm d d' :
  NoDup (map fst d) -> Permutation d d' ->
  forall k, dict_lookup d' k = dict_lookup d k.
Proof.
  intros Hnd Hp. induction Hp as [|[k0 v0] l l' Hp IH|[k1 v1] [k2 v2] l|l l' l'' H1 IH1 H2 IH2];
    intros k.
  - reflexivity.
  - simpl in *. inversion Hnd; subst. now rewrite IH.
  - simpl in *. inversion Hnd as [|? ? Hnotin _]; subst.
    destruct (String.eqb_spec k1 k) as [->|]; [|reflexivity].
    destruct (String.eqb_spec k2 k) as [->|]; [|reflexivity].
    exfalso. apply Hnotin. now left.
  - rewrite IH2, IH1; [reflexivity | assumption |].
    eapply Permutation_NoDup; [|exact Hnd]. now apply Permutation_map.
Qed.

Lemma Props_rendered_ext props d d' :
  (forall k, dict_get d' k = dict_get d k) ->
  Props_rendered props d' = Props_rendered props d.
Proof.
  intros H. induction props as [|[k p] rest IH]; [reflexivity|].
  simpl. now rewrite H, IH.
Qed.

(** C2 (as amended): the collection renders its descriptors in its own
    order, one fragment for each key that the record populates with a
    value other than [None], whatever the order of the keys in the record;
    a fragment is what the descriptor renders for the value, and it may be
    empty. *)
Theorem Props_render_populated : forall props data,
  Props_rendered props data
  = mapM (fun pv => render (fst pv) (snd pv)) (populated props data)
  /\ (forall rendered, Props_rendered props data = Ok rendered ->
        List.length rendered = populated_count props data
        /\ Forall2 (fun pv frag => render (fst pv) (snd pv) = Ok frag)
             (populated props data) rendered)
  /\ (forall data', NoDup (map fst data) -> Permutation data data' ->
        Props_rendered props data' = Props_rendered props data).
Proof.
  intros props data. split; [apply Props_rendered_mapM|]. split.
  - intros rendered H. rewrite Props_rendered_mapM in H.
    apply mapM_Forall2 in H as [Hlen Hall].
    now rewrite Hlen, populated_length.
  - intros data' Hnd Hp. apply Props_rendered_ext.
    intros k. unfold dict_get. now rewrite (dict_lookup_perm _ _ Hnd Hp).
Qed.

Lemma Props_render_populated_witness :
  NoDup (map fst example_data)
  /\ Permutation example_data example_data_swapped
  /\ Props_rendered example_props example_data
     = Ok [VStr EmptyString; VStr "AUTO_RESUME = TRUE"]
  /\ List.length [VStr EmptyString; VStr "AUTO_RESUME = TRUE"]
     = populated_count example_props example_data
  /\ Props_rendered example_props example_data_swapped
     = Props_rendered example_props example_data.
Proof.
  destruct (Props_render_populated example_props example_data) as (_ & Hlen & Hperm).
  assert (Hnd : NoDup (map fst example_data))
    by (repeat constructor; simpl; intuition discriminate).
  split; [exact Hnd|].
  split; [apply perm_swap|].
  split; [reflexivity|].
  split; [exact (proj1 (Hlen _ eq_refl))|].
  exact (Hperm example_data_swapped Hnd (perm_swap _ _ _)).
Defined.

(** C2 as stated fails: a flag populated with [False] is rendered as an
    empty fragment, so two populated keys give one non-empty fragment. *)
Lemma Props_render_empty_fragment :
  populated_count example_props example_data = 2
  /\ Props_rendered example_props example_data
     = Ok [VStr EmptyString; VStr "AUTO_RESUME = TRUE"]
  /\ List.length
       (filter nonempty_fragment [VStr EmptyString; VStr "AUTO_RESUME = TRUE"]) = 1
  /\ Props_render (mkProps example_props None None) example_data
     = Ok "AUTO_RESUME = TRUE".
Proof. repeat split. Qed.

(** C10: the collection skips a key exactly when its value is [None].
    Any other value, [False], [0], the empty string and the empty list
    included, goes to the descriptor's [render], whose result takes its
    place among the fragments; a flag set to [False] gives an empty
    fragment there. *)
Theorem Props_render_skips_only_None : forall pre k p post data,
  (dict_get data k <> VNone ->
   Props_rendered (pre ++ (k, p) :: post) data
   = (a <- Props_rendered pre data ;;
      r <- render p (dict_get data k) ;;
      b <- Props_rendered post data ;;
      Ok (a ++ r :: b)%list))
  /\ (dict_get data k = VNone ->
      Props_rendered (pre ++ (k, p) :: post) data
      = (a <- Props_rendered pre data ;;
         b <- Props_rendered post data ;;
         Ok (a ++ b)%list))
  /\ (VBool false <> VNone /\ VInt 0 <> VNone
      /\ VStr EmptyString <> VNone /\ VList [] <> VNone)
  /\ (forall lbl, dict_get data k = VBool false ->
      Props_rendered [(k, FlagProp_new lbl)] data = Ok [VStr EmptyString]).
Proof.
  intros pre k p post data. split; [|split; [|split]].
  - intros H. rewrite Props_rendered_app, (Props_rendered_cons_value _ _ _ _ H).
    destruct (Props_rendered pre data); [|reflexivity]. cbn [bind].
    destruct (render p (dict_get data k)); [|reflexivity]. cbn [bind].
    now destruct (Props_rendered post data).
  - intros H. now rewrite Props_rendered_app, (Props_rendered_cons_None _ _ _ _ H).
  - repeat split; discriminate.
  - intros lbl H. simpl. now rewrite H.
Qed.

Lemma Props_render_skips_only_None_witness :
  dict_get example_data_swapped "transient" <> VNone
  /\ dict_get example_data_swapped "transient" = VBool false
  /\ dict_get example_data_swapped "comment" = VNone
  /\ Props_rendered example_props example_data_swapped
     = Ok [VStr EmptyString; VStr "AUTO_RESUME = TRUE"]
  /\ Props_rendered [("transient", FlagProp_new "TRANSIENT")] example_data_swapped
     = Ok [VStr EmptyString].
Proof.
  split; [discriminate|]. split; [reflexivity|]. split; [reflexivity|].
  split.
  - exact (proj1 (Props_render_skips_only_None []
                    "transient" (FlagProp_new "TRANSIENT")
                    (tl example_props) example_data_swapped)
             ltac:(discriminate)).
  - exact (proj2 (proj2 (proj2 (Props_render_skips_only_None []
                    "transient" (FlagProp_new "TRANSIENT") [] example_data_swapped)))
             "TRANSIENT" eq_refl).
Defined.

(** ** Rendering an absent value *)

(** C1 (as amended): every class that implements [render] returns the
    empty fragment for [None], except the column list, which returns the
    empty parenthesized list. *)
Theorem render_None_fragment : forall self,
  implements_render (cls self) = true ->
  render self VNone
  = Ok (VStr (match cls self with ColumnsProp => "()" | _ => EmptyString end)).
Proof.
  intros self H. unfold render.
  destruct (cls self); try discriminate H; reflexivity.
Qed.

Lemma render_None_fragment_witness :
  implements_render (cls (FlagProp_new "TRANSIENT")) = true
  /\ render (FlagProp_new "TRANSIENT") VNone = Ok (VStr EmptyString).
Proof.
  split; [reflexivity|].
  exact (render_None_fragment (FlagProp_new "TRANSIENT") eq_refl).
Defined.

(** C1 as stated fails on the column list: [ColumnsProp.render(None)] is
    the text of an empty column list, not the empty fragment. *)
Lemma ColumnsProp_render_None_not_empty :
  implements_render (cls ColumnsProp_new) = true
  /\ render ColumnsProp_new VNone = Ok (VStr "()")
  /\ render ColumnsProp_new VNone <> Ok (VStr EmptyString).
Proof. split; [reflexivity | split; [reflexivity | discriminate]]. Qed.

(** ** Grammars and text that follows the clause *)


Lemma skip_ws_head s :
  skip_ws s = EmptyString
  \/ exists c r, skip_ws s = String c r /\ is_space c = false.
Proof.
  induction s as [|c s IH]; [now left|].
  simpl. destruct (is_space c) eqn:E; [exact IH|]. right. eauto.
Qed.

Lemma skip_ws_idem s : skip_ws (skip_ws s) = skip_ws s.
Proof.
  destruct (skip_ws_head s) as [->|(c & r & -> & Hc)]; [reflexivity|].
  simpl. now rewrite Hc.
Qed.
























(** *** Filler words *)

















(** ** The boolean round trip *)

Lemma fillers_skipped_And words s :
  fillers_skipped words s = true ->
  And (map (fun tok => Opt (Keyword tok)) words) s = Some ([], s).
Proof.
  unfold fillers_skipped. induction words as [|tok words IH]; [reflexivity|].
  simpl. intros H. apply andb_true_iff in H as [Htok Hw].
  unfold Opt at 1. destruct (Keyword tok s); [discriminate|].
  now rewrite (IH Hw).
Qed.

Lemma consume_expr_skipped words s p :
  fillers_skipped words s = true ->
  match words with
  | [] => None
  | _ :: _ => Some (suppress (And (map (fun tok => Opt (Keyword tok)) words)))
  end = Some p ->
  p s = Some ([], s).
Proof.
  intros H. destruct words as [|w ws]; [discriminate|].
  intros [= <-]. pose proof (fillers_skipped_And _ _ H) as E.
  unfold suppress. cbn [map And] in E. now rewrite E.
Qed.

Lemma And_skip_option (o : option Parser) os s :
  (forall p, o = Some p -> p s = Some ([], s)) ->
  And (some_parsers (o :: os)) s = And (some_parsers os) s.
Proof.
  intros H. destruct o as [p|]; [|reflexivity].
  change (some_parsers (Some p :: os)) with (p :: some_parsers os).
  cbn [And]. rewrite (H p eq_refl).
  now destruct (And (some_parsers os) s) as [[ts r]|].
Qed.

Lemma bool_clause_labelled a l (eq v : bool) :
  bool_clause (String a l) eq v
  = upper (String a l) ++ (if eq then " = " else " ") ++ bool_text v.
Proof.
  unfold bool_clause. apply tidy_sql_3; [discriminate | destruct v; discriminate].
Qed.

Lemma BoolProp_render_clause lbl eq parens alts consume v :
  BoolProp_render (BoolProp_new lbl eq parens alts consume) (VBool v)
  = Ok (VStr (bool_clause lbl eq v)).
Proof. destruct v; reflexivity. Qed.

(** C5 (as amended): a boolean descriptor built without the parenthesis
    flag parses what it renders, for both booleans, with and without the
    equals sign, when its label is ASCII text and is empty or a sequence of
    keywords, and when none of its filler words is matched at the start of
    the rendered clause or right after its label. *)
Theorem BoolProp_roundtrip : forall lbl (eq : bool) alts consume (v : bool),
  ascii_text lbl = true ->
  lbl = EmptyString \/ wf_label lbl = true ->
  fillers_skipped (consume_words consume) (bool_clause lbl eq v) = true ->
  fillers_skipped (consume_words consume) (after_label lbl eq v) = true ->
  BoolProp_render (BoolProp_new lbl eq false alts consume) (VBool v)
  = Ok (VStr (bool_clause lbl eq v))
  /\ BoolProp_parse (BoolProp_new lbl eq false alts consume) (bool_clause lbl eq v)
     = Ok (VBool v).
Proof.
  intros lbl eq alts consume v _ Hl H1 H2.
  split; [apply BoolProp_render_clause|].
  unfold BoolProp_parse, Prop_parse, BoolProp_new, Prop_init.
  cbn [parser saves_list ve_parser ve_list]. fold (consume_words consume).
  destruct lbl as [|a l].
  - (* no label: the filler words, the equals sign, the value *)
    rewrite And_skip_option by (intros p; apply consume_expr_skipped; exact H1).
    change (some_parsers (None :: ?os)) with (some_parsers os).
    rewrite And_skip_option by (intros p; apply consume_expr_skipped; exact H1).
    destruct eq, v; reflexivity.
  - destruct Hl as [Hl|Hl]; [discriminate|].
    rewrite And_skip_option by (intros p; apply consume_expr_skipped; exact H1).
    rewrite bool_clause_labelled.
    change (some_parsers (Some ?p :: ?os)) with (p :: some_parsers os).
    cbn [And]. unfold suppress at 1.
    assert (E : upper (String a l) ++ (if eq then " = " else " ") ++ bool_text v
                = upper (String a l)
                  ++ String " " ((if eq then "= " else EmptyString) ++ bool_text v))
      by (now destruct eq).
    rewrite E, (Keywords_rendered _ " " _ Hl eq_refl).
    assert (E' : String " " ((if eq then "= " else EmptyString) ++ bool_text v)
                 = after_label (String a l) eq v) by (now destruct eq).
    rewrite E'.
    rewrite And_skip_option by (intros p; apply consume_expr_skipped; exact H2).
    destruct eq, v; reflexivity.
Qed.

Lemma BoolProp_roundtrip_witness :
  ascii_text "auto_resume" = true
  /\ ("auto_resume" = EmptyString \/ wf_label "auto_resume" = true)
  /\ fillers_skipped (consume_words (ConsumeStr "WITH"))
       (bool_clause "auto_resume" true true) = true
  /\ fillers_skipped (consume_words (ConsumeStr "WITH"))
       (after_label "auto_resume" true true) = true
  /\ BoolProp_render (BoolProp_new "auto_resume" true false [] (ConsumeStr "WITH"))
       (VBool true) = Ok (VStr "AUTO_RESUME = TRUE")
  /\ BoolProp_parse (BoolProp_new "auto_resume" true false [] (ConsumeStr "WITH"))
       "AUTO_RESUME = TRUE" = Ok (VBool true).
Proof.
  split; [reflexivity|]. split; [right; reflexivity|].
  split; [reflexivity|]. split; [reflexivity|].
  exact (BoolProp_roundtrip "auto_resume" true [] (ConsumeStr "WITH") true
           eq_refl (or_intror eq_refl) eq_refl eq_refl).
Defined.

Lemma And_has_failing p ps :
  In p ps -> (forall s, p s = None) -> forall s, And ps s = None.
Proof.
  intros Hin Hp. induction ps as [|q ps IH]; [destruct Hin|].
  intros s. simpl. destruct Hin as [->|Hin].
  - now rewrite Hp.
  - destruct (q s) as [[t r]|]; [|reflexivity]. now rewrite (IH Hin).
Qed.

Lemma Keyword_bad_word w : word_ok w = false -> forall s, Keyword w s = None.
Proof.
  intros Hw s. unfold Keyword. destruct w as [|c w]; [reflexivity|].
  simpl in Hw. apply negb_false_iff in Hw.
  destruct (skip_ws_head s) as [->|(b & r & -> & Hb)]; [reflexivity|].
  simpl. destruct (Ascii.eqb_spec (upper_char c) (upper_char b)) as [E|_]; [|reflexivity].
  apply (f_equal is_space) in E. rewrite !is_space_upper in E. congruence.
Qed.

(** A label that is not empty and not a sequence of keywords, a word of
    it being empty or beginning with white space, matches no input. *)
Lemma Keywords_bad_label l : wf_label l = false -> forall s, Keywords l s = None.
Proof.
  intros Hl s. unfold Keywords, wf_label in *.
  assert (Hex : exists w, In w (split " " l) /\ word_ok w = false).
  { induction (split " " l) as [|w ws IH]; [discriminate|].
    simpl in Hl. destruct (word_ok w) eqn:Hw.
    - destruct (IH Hl) as (w' & Hin & Hw'). exists w'. split; [now right | exact Hw'].
    - exists w. split; [now left | exact Hw]. }
  destruct Hex as (w & Hin & Hw).
  rewrite (And_has_failing (Keyword w)); [reflexivity | | now apply Keyword_bad_word].
  now apply in_map.
Qed.

Lemma BoolProp_parse_bad_label a l eq parens alts s :
  wf_label (String a l) = false ->
  BoolProp_parse (BoolProp_new (String a l) eq parens alts (ConsumeList [])) s
  = Raise ParseException.
Proof.
  intros Hl. unfold BoolProp_parse, Prop_parse, BoolProp_new, Prop_init.
  cbn [parser some_parsers flat_map app And]. unfold suppress at 1.
  now rewrite (Keywords_bad_label _ Hl).
Qed.

(** C5 as stated fails for a boolean descriptor built with the parenthesis
    flag: [render] never writes the parentheses that its grammar requires.
    It fails also when a filler word is matched in the rendered clause, and
    when a word of the label begins with white space. *)
Lemma BoolProp_roundtrip_fails :
  (let P := BoolProp_new "AUTO_RESUME" true true [] (ConsumeList []) in
   BoolProp_render P (VBool true) = Ok (VStr "AUTO_RESUME = TRUE")
   /\ BoolProp_parse P "AUTO_RESUME = TRUE" = Raise ParseException)
  /\ (let P := BoolProp_new "ENABLED" false false [] (ConsumeStr "TRUE") in
      BoolProp_render P (VBool true) = Ok (VStr "ENABLED TRUE")
      /\ BoolProp_parse P "ENABLED TRUE" = Raise ParseException)
  /\ (let P := BoolProp_new (String "009" "X") true false [] (ConsumeList []) in
      BoolProp_render P (VBool true) = Ok (VStr (String "009" "X = TRUE"))
      /\ BoolProp_parse P (String "009" "X = TRUE") = Raise ParseException).
Proof. repeat split. Qed.

(** ** Trailing text *)

Lemma BoolProp_typecheck_no_mismatch self v :
  BoolProp_typecheck self v <> Raise ParseException.
Proof.
  unfold BoolProp_typecheck. destruct v; try discriminate.
  destruct (existsb _ _); discriminate.
Qed.

(** X20: text after a rendered boolean clause does not change what it
    parses to. *)
Lemma BoolProp_parse_trailing_text lbl (eq : bool) alts (v : bool) garbage :
  wf_label lbl = true ->
  BoolProp_parse (BoolProp_new lbl eq false alts (ConsumeList []))
    (upper lbl ++ (if eq then " = " else " ")
     ++ (if v then "TRUE" else "FALSE") ++ " " ++ garbage)
  = Ok (VBool v).
Proof.
  intros Hl. unfold BoolProp_parse, Prop_parse, BoolProp_new.
  rewrite (parser_rendered _ _ _ _ _ _ Hl).
  destruct v; reflexivity.
Qed.





(** ** The tag map *)

Lemma TagsProp_pairs_parity toks : forall tags,
  (Nat.odd (List.length toks) = true ->
   TagsProp_pairs tags (map VStr toks) = Raise StopIteration)
  /\ (Nat.even (List.length toks) = true ->
      exists tags', TagsProp_pairs tags (map VStr toks) = Ok tags').
Proof.
  induction toks as [toks IH] using (induction_ltof1 _ (@List.length string)).
  unfold ltof in IH. intros tags.
  destruct toks as [|k [|v toks]].
  - split; [discriminate | intros _; now exists tags].
  - split; [reflexivity | discriminate].
  - destruct (IH toks ltac:(simpl; lia) (dict_set tags k (VStr v))) as [Ho He].
    split; intros H; [apply Ho | apply He]; exact H.
Qed.

Lemma TagsProp_typecheck_odd toks :
  Nat.odd (List.length toks) = true ->
  TagsProp_typecheck TagsProp_new (VList (map VStr toks)) = Raise StopIteration.
Proof.
  intros H. unfold TagsProp_typecheck. cbn [py_iter bind].
  now rewrite (proj1 (TagsProp_pairs_parity toks []) H).
Qed.

(** With the quoted-string token of the string descriptor, which keeps
    the quotes, parsing the rendered text gives each value with its quotes
    around it. *)
Lemma TagsProp_roundtrip_keeps_quotes :
  TagsProp_render TagsProp_new (VDict [("env", VStr "prod"); ("team", VStr "data")])
  = Ok (VStr "TAG (env = 'prod', team = 'data')")
  /\ TagsProp_parse TagsProp_new "TAG (env = 'prod', team = 'data')"
     = Ok (VDict [("env", VStr "'prod'"); ("team", VStr "'data'")])
  /\ TagsProp_parse TagsProp_new "TAG (env = 'prod', team = 'data')"
     <> Ok (VDict [("env", VStr "prod"); ("team", VStr "data")])
  /\ TagsProp_typecheck TagsProp_new (VList [VStr "env"; VStr "'prod'"; VStr "team"])
     = Raise StopIteration.
Proof.
  split; [reflexivity|]. split; [reflexivity|]. split; [discriminate | reflexivity].
Qed.



(** ** Errors of the enum descriptor and the text of an enum list *)

(** C4 at a token outside the enumeration: a token that matches a member
    in any case is parsed to that member, but an unknown token is refused
    by the conversion to the enumeration class, with an error that names
    the token and the class and not the allowed members; the error that
    lists them is raised only for a member of the class outside the
    allowed list. *)
Theorem EnumProp_unknown_token_error :
  let P := EnumProp_new "COLOR" (AnEnum Color) true false [] (ConsumeList []) in
  let Q := EnumProp_new "COLOR" (AList Color [RED; BLUE]) true false [] (ConsumeList []) in
  EnumProp_parse P "COLOR = red" = Ok (VEnum RED)
  /\ EnumProp_parse P "color = Blue" = Ok (VEnum BLUE)
  /\ EnumProp_typecheck P (VStr "purple") = Raise (NotAValidMember (VStr "purple") "Color")
  /\ EnumProp_parse P "COLOR = purple" = Raise (NotAValidMember (VStr "purple") "Color")
  /\ EnumProp_parse Q "COLOR = purple" = Raise (NotAValidMember (VStr "purple") "Color")
  /\ EnumProp_parse Q "COLOR = green" = Raise (NotAValidMember (VStr "green") "Color")
  /\ EnumProp_parse Q "COLOR = GREEN" = Raise (InvalidValue GREEN [RED; BLUE]).
Proof. repeat split. Qed.

Lemma EnumListProp_render_form lbl a eq parens alts consume m ms :
  EnumListProp_render (EnumListProp_new lbl a eq parens alts consume)
    (VList (map VEnum (m :: ms)))
  = Ok (VStr (lbl ++ (if eq then " = " else " ")
              ++ "(" ++ ("[" ++ join ", " (map repr_member (m :: ms)) ++ "]") ++ ")")).
Proof.
  unfold EnumListProp_render, EnumListProp_new, set_enum, label_str, eq_sep.
  cbn [label eq_ Prop_init py_len map List.length bind Nat.eqb py_str py_repr].
  rewrite map_map. reflexivity.
Qed.

(** C8 at a two-member list: the text is the label, the separator, and
    between parentheses the [str] of the Python list itself, with its
    brackets and the [repr] of each member, whatever the parenthesis
    flag. *)
Theorem EnumListProp_render_list_repr :
  EnumListProp_render
    (EnumListProp_new "COLORS" (AnEnum Color) false true [] (ConsumeList []))
    (VList [VEnum RED; VEnum BLUE])
  = Ok (VStr "COLORS ([<Color.RED: 'RED'>, <Color.BLUE: 'BLUE'>])")
  /\ EnumListProp_render
       (EnumListProp_new "COLORS" (AnEnum Color) false false [] (ConsumeList []))
       (VList [VEnum RED; VEnum BLUE])
     = Ok (VStr "COLORS ([<Color.RED: 'RED'>, <Color.BLUE: 'BLUE'>])")
  /\ EnumListProp_render
       (EnumListProp_new "COLORS" (AnEnum Color) true true [] (ConsumeList []))
       (VList [VEnum RED; VEnum BLUE])
     = Ok (VStr "COLORS = ([<Color.RED: 'RED'>, <Color.BLUE: 'BLUE'>])").
Proof. repeat split. Qed.

(** ** The string list *)

(** C7 (as amended): the list renders as the claim says whatever the
    flags, and the descriptor built with the parenthesis flag parses the
    text back to the list. *)
Theorem StringListProp_NAMES_roundtrip : forall alts,
  (forall parens,
     StringListProp_render (StringListProp_new "NAMES" true parens alts (ConsumeList []))
       (VList [VStr "a"; VStr "b"; VStr "c"])
     = Ok (VStr "NAMES = (a, b, c)"))
  /\ StringListProp_parse (StringListProp_new "NAMES" true true alts (ConsumeList []))
       "NAMES = (a, b, c)"
     = Ok (VList [VStr "a"; VStr "b"; VStr "c"]).
Proof. intros alts. split; [intros parens|]; reflexivity. Qed.

(** C7 as stated fails for the descriptor as [StringListProp("NAMES")]
    builds it: its grammar has no parentheses, and the rendered text does
    not match it. *)
Lemma StringListProp_NAMES_default_fails :
  StringListProp_render (StringListProp_new "NAMES" true false [] (ConsumeList []))
    (VList [VStr "a"; VStr "b"; VStr "c"])
  = Ok (VStr "NAMES = (a, b, c)")
  /\ StringListProp_parse (StringListProp_new "NAMES" true false [] (ConsumeList []))
       "NAMES = (a, b, c)"
     = Raise ParseException.
Proof. split; reflexivity. Qed.

(** ** The string descriptor *)

Lemma length_append (a b : string) :
  String.length (a ++ b) = String.length a + String.length b.
Proof. induction a as [|c a IH]; simpl; [reflexivity | now rewrite IH]. Qed.

Lemma quoted_neq s : "'" ++ s ++ "'" <> s.
Proof.
  intros H. apply (f_equal String.length) in H.
  simpl in H. rewrite length_append in H. simpl in H. lia.
Qed.

Lemma span_quoted_body s r :
  plain_text s = true ->
  span is_quoted_body_c (s ++ String "'" r) = (s, String "'" r).
Proof.
  unfold plain_text. induction s as [|c s IH]; intros H; [reflexivity|].
  simpl in H. apply andb_true_iff in H as [Hc Hs].
  simpl. now rewrite Hc, (IH Hs).
Qed.

Lemma ANY_quoted s :
  plain_text s = true ->
  ANY (String " " ("'" ++ s ++ "'")) = Some (["'" ++ s ++ "'"], EmptyString).
Proof.
  intros H. unfold ANY, MatchFirst, Word, sgl_quoted_string.
  change (skip_ws (String " " ("'" ++ s ++ "'"))) with (String "'" (s ++ "'")).
  cbn [span]. change (is_word_c "'") with false. cbv beta iota.
  now rewrite (span_quoted_body s EmptyString H).
Qed.

(** C6: [render] always writes the value between single quotes and
    [typecheck] returns the captured text as it is.  So for every plain
    value the rendered clause parses to the value with its quotes, which is
    not the value that was rendered. *)
Theorem StringProp_roundtrip_asymmetric :
  (forall self v, v <> VNone ->
     StringProp_render self v
     = (l <- label_upper self ;;
        Ok (VStr (tidy_sql [VStr l; eq_part self; VStr ("'" ++ py_str v ++ "'")]))))
  /\ (forall self raw, StringProp_typecheck self raw = Ok raw)
  /\ (forall lbl (eq : bool) alts s,
        wf_label lbl = true -> plain_text s = true ->
        exists text,
          StringProp_render (StringProp_new lbl eq false alts (ConsumeList [])) (VStr s)
          = Ok (VStr text)
          /\ StringProp_parse (StringProp_new lbl eq false alts (ConsumeList [])) text
             = Ok (VStr ("'" ++ s ++ "'"))
          /\ StringProp_parse (StringProp_new lbl eq false alts (ConsumeList [])) text
             <> Ok (VStr s))
  /\ (exists P s text,
        StringProp_render P (VStr s) = Ok (VStr text)
        /\ StringProp_parse P text <> Ok (VStr s)).
Proof.
  assert (G : forall lbl (eq : bool) alts s,
        wf_label lbl = true -> plain_text s = true ->
        exists text,
          StringProp_render (StringProp_new lbl eq false alts (ConsumeList [])) (VStr s)
          = Ok (VStr text)
          /\ StringProp_parse (StringProp_new lbl eq false alts (ConsumeList [])) text
             = Ok (VStr ("'" ++ s ++ "'"))
          /\ StringProp_parse (StringProp_new lbl eq false alts (ConsumeList [])) text
             <> Ok (VStr s)).
  { intros lbl eq alts s Hl Hs.
    destruct (wf_label_nonempty _ Hl) as (a & l' & E).
    exists (upper lbl ++ (if eq then " = " else " ") ++ "'" ++ s ++ "'").
    assert (Hparse : StringProp_parse (StringProp_new lbl eq false alts (ConsumeList []))
                       (upper lbl ++ (if eq then " = " else " ") ++ "'" ++ s ++ "'")
                     = Ok (VStr ("'" ++ s ++ "'"))).
    { unfold StringProp_parse, Prop_parse, StringProp_new.
      rewrite (parser_rendered _ _ _ _ _ _ Hl).
      cbn [ve_parser]. now rewrite (ANY_quoted s Hs). }
    split; [|split; [exact Hparse|]].
    - unfold StringProp_render, label_upper, StringProp_new, Prop_init, label, eq_part,
        eq_, bind, py_str.
      rewrite <- (tidy_sql_3 (upper lbl) ("'" ++ s ++ "'") eq).
      + reflexivity.
      + subst lbl; discriminate.
      + discriminate.
    - rewrite Hparse. intros [= H]. exact (quoted_neq s H). }
  split; [|split; [|split]].
  - intros self v Hv. destruct v; try reflexivity. congruence.
  - reflexivity.
  - exact G.
  - destruct (G "COMMENT" true [] "abc" eq_refl eq_refl) as (text & Hr & _ & Hne).
    now exists (StringProp_new "COMMENT" true false [] (ConsumeList [])), "abc", text.
Qed.

Lemma StringProp_roundtrip_asymmetric_witness :
  VStr "abc" <> VNone
  /\ wf_label "COMMENT" = true
  /\ plain_text "abc" = true
  /\ StringProp_render (StringProp_new "COMMENT" true false [] (ConsumeList []))
       (VStr "abc") = Ok (VStr "COMMENT = 'abc'")
  /\ exists text,
       StringProp_render (StringProp_new "COMMENT" true false [] (ConsumeList []))
         (VStr "abc") = Ok (VStr text)
       /\ StringProp_parse (StringProp_new "COMMENT" true false [] (ConsumeList [])) text
          = Ok (VStr "'abc'")
       /\ StringProp_parse (StringProp_new "COMMENT" true false [] (ConsumeList [])) text
          <> Ok (VStr "abc").
Proof.
  split; [discriminate|]. split; [reflexivity|]. split; [reflexivity|].
  split.
  - exact (proj1 StringProp_roundtrip_asymmetric
             (StringProp_new "COMMENT" true false [] (ConsumeList [])) (VStr "abc")
             ltac:(discriminate)).
  - exact (proj1 (proj2 (proj2 StringProp_roundtrip_asymmetric))
             "COMMENT" true [] "abc" eq_refl eq_refl).
Defined.

(** ** More on the named collection *)

Lemma render_unsupported self v :
  implements_render (cls self) = false -> render self v = Raise NotImplementedError.
Proof. unfold render. destruct (cls self); try discriminate; reflexivity. Qed.

(** X1: a collection cannot render a record that populates the key of a
    descriptor without [render]: the call raises, and the error is
    [NotImplementedError] when the descriptors before it render. *)
Theorem Props_render_unsupported_raises : forall pre k p post data,
  dict_get data k <> VNone ->
  implements_render (cls p) = false ->
  (exists e, Props_rendered (pre ++ (k, p) :: post) data = Raise e)
  /\ (forall a, Props_rendered pre data = Ok a ->
      Props_render (mkProps (pre ++ (k, p) :: post) None None) data
      = Raise NotImplementedError).
Proof.
  intros pre k p post data Hv Hp.
  assert (H : Props_rendered (pre ++ (k, p) :: post) data
              = (a <- Props_rendered pre data ;; Raise NotImplementedError)).
  { rewrite Props_rendered_app, (Props_rendered_cons_value _ _ _ _ Hv),
      (render_unsupported _ _ Hp).
    now destruct (Props_rendered pre data). }
  split.
  - rewrite H. destruct (Props_rendered pre data) as [a|e]; cbn [bind]; eauto.
  - intros a Ha. unfold Props_render. cbn [props]. now rewrite H, Ha.
Qed.

Lemma Props_render_unsupported_raises_witness :
  dict_get [("headers", VDict [])] "headers" <> VNone
  /\ implements_render (cls (DictProp_new "HEADERS" true true [] (ConsumeList []))) = false
  /\ Props_render
       (mkProps ([("transient", FlagProp_new "TRANSIENT")]
                 ++ ("headers", DictProp_new "HEADERS" true true [] (ConsumeList []))
                    :: []) None None)
       [("headers", VDict [])]
     = Raise NotImplementedError.
Proof.
  split; [discriminate|]. split; [reflexivity|].
  exact (proj2 (Props_render_unsupported_raises
                  [("transient", FlagProp_new "TRANSIENT")] "headers"
                  (DictProp_new "HEADERS" true true [] (ConsumeList [])) []
                  [("headers", VDict [])] ltac:(discriminate) eq_refl)
           [] eq_refl).
Defined.

Lemma Props_rendered_own_keys props : forall d d',
  (forall k, In k (map fst props) -> dict_get d' k = dict_get d k) ->
  Props_rendered props d' = Props_rendered props d.
Proof.
  induction props as [|[k p] rest IH]; intros d d' H; [reflexivity|].
  simpl. rewrite (H k) by now left.
  rewrite (IH d d') by (intros k' Hk'; apply H; now right).
  reflexivity.
Qed.

Lemma dict_lookup_app d1 d2 k :
  dict_lookup (d1 ++ d2)%list k
  = match dict_lookup d1 k with
    | Some v => Some v
    | None => dict_lookup d2 k
    end.
Proof.
  induction d1 as [|[k' v] d1 IH]; [reflexivity|].
  simpl. now destruct (String.eqb k' k).
Qed.

Lemma dict_lookup_None d k : ~ In k (map fst d) -> dict_lookup d k = None.
Proof.
  induction d as [|[k' v] d IH]; [reflexivity|].
  simpl. intros H. destruct (String.eqb_spec k' k) as [->|_].
  - exfalso. apply H. now left.
  - apply IH. intros Hin. apply H. now right.
Qed.

(** X2: the collection reads the record at its own keys only: two records
    that agree there render alike, and entries under other keys change
    nothing. *)
Theorem Props_render_reads_own_keys : forall self data,
  (forall data',
     (forall k, In k (map fst (props self)) -> dict_get data' k = dict_get data k) ->
     Props_render self data' = Props_render self data)
  /\ (forall other,
        (forall k, In k (map fst (props self)) -> ~ In k (map fst other)) ->
        Props_render self (data ++ other)%list = Props_render self data).
Proof.
  intros self data.
  assert (G : forall data',
     (forall k, In k (map fst (props self)) -> dict_get data' k = dict_get data k) ->
     Props_render self data' = Props_render self data).
  { intros data' H. unfold Props_render.
    now rewrite (Props_rendered_own_keys _ data data' H). }
  split; [exact G|].
  intros other H. apply G. intros k Hk. unfold dict_get.
  rewrite dict_lookup_app, (dict_lookup_None other k (H k Hk)).
  now destruct (dict_lookup data k).
Qed.

Lemma Props_render_reads_own_keys_witness :
  Props_render (mkProps example_props None None)
    (example_data ++ [("owner", VStr "SYSADMIN")])%list
  = Props_render (mkProps example_props None None) example_data.
Proof.
  apply (proj2 (Props_render_reads_own_keys (mkProps example_props None None)
                  example_data)).
  intros k Hk Hin. simpl in Hk, Hin.
  destruct Hin as [<-|[]].
  destruct Hk as [Hk|[Hk|[Hk|[]]]]; discriminate Hk.
Defined.

(** X3: a record that populates none of the keys of the collection
    renders as the empty text, and no descriptor is asked to render, not
    even one without [render]. *)
Theorem Props_render_nothing_populated : forall self data,
  (forall k, In k (map fst (props self)) -> dict_get data k = VNone) ->
  Props_rendered (props self) data = Ok []
  /\ Props_render self data = Ok EmptyString.
Proof.
  intros self data H.
  assert (G : Props_rendered (props self) data = Ok []).
  { induction (props self) as [|[k p] rest IH]; [reflexivity|].
    rewrite Props_rendered_cons_None by (apply H; now left).
    apply IH. intros k' Hk'. apply H. now right. }
  split; [exact G|]. unfold Props_render. now rewrite G.
Qed.

Lemma Props_render_nothing_populated_witness :
  Props_render
    (mkProps [("headers", DictProp_new "HEADERS" true true [] (ConsumeList []));
              ("transient", FlagProp_new "TRANSIENT")] None None)
    [("transient", VNone); ("owner", VStr "SYSADMIN")]
  = Ok EmptyString.
Proof.
  apply (Props_render_nothing_populated
           (mkProps [("headers", DictProp_new "HEADERS" true true [] (ConsumeList []));
                     ("transient", FlagProp_new "TRANSIENT")] None None)
           [("transient", VNone); ("owner", VStr "SYSADMIN")]).
  intros k Hk. simpl in Hk. destruct Hk as [<-|[<-|[]]]; reflexivity.
Defined.

(** ** The pairing loop of the tag map and of the key/value map *)

Lemma dict_set_fresh d k v :
  ~ In k (map fst d) -> dict_set d k v = (d ++ [(k, v)])%list.
Proof.
  induction d as [|[k' v'] d IH]; [reflexivity|].
  simpl. intros H. destruct (String.eqb_spec k' k) as [->|_].
  - exfalso. apply H. now left.
  - rewrite IH; [reflexivity|]. intros Hin. apply H. now right.
Qed.

Lemma dict_lookup_set d k v k' :
  dict_lookup (dict_set d k v) k'
  = if String.eqb k k' then Some v else dict_lookup d k'.
Proof.
  induction d as [|[k0 v0] d IH]; simpl.
  - reflexivity.
  - destruct (String.eqb_spec k0 k) as [->|Hne]; simpl.
    + now destruct (String.eqb k k').
    + rewrite IH. destruct (String.eqb_spec k0 k') as [->|_]; [|reflexivity].
      destruct (String.eqb_spec k k') as [->|_]; [congruence | reflexivity].
Qed.

Lemma dict_set_keys d k v :
  In k (map fst d) -> map fst (dict_set d k v) = map fst d.
Proof.
  induction d as [|[k' v'] d IH]; [intros []|].
  simpl. destruct (String.eqb_spec k' k) as [->|Hne]; [reflexivity|].
  intros [H|H]; [congruence|]. simpl. now rewrite IH.
Qed.

Lemma dict_set_NoDup d k v : NoDup (map fst d) -> NoDup (map fst (dict_set d k v)).
Proof.
  intros H. destruct (in_dec string_dec k (map fst d)) as [Hin|Hout].
  - now rewrite dict_set_keys.
  - rewrite (dict_set_fresh _ _ _ Hout), map_app. simpl.
    apply NoDup_app; [exact H | repeat constructor; intros [] |].
    intros x Hx [<-|[]]. contradiction.
Qed.

Lemma TagsProp_pairs_flatten kvs : forall tags,
  exists d, TagsProp_pairs tags (flatten_pairs kvs) = Ok d
    /\ (NoDup (map fst tags) -> NoDup (map fst d))
    /\ (forall k, dict_lookup d k
                  = match dict_lookup (rev (str_items kvs)) k with
                    | Some v => Some v
                    | None => dict_lookup tags k
                    end)
    /\ (NoDup (map fst tags ++ map fst kvs) -> d = (tags ++ str_items kvs)%list).
Proof.
  induction kvs as [|[k v] kvs IH]; intros tags.
  - exists tags. simpl. repeat split; auto. intros _. now rewrite app_nil_r.
  - destruct (IH (dict_set tags k (VStr v))) as (d & Hd & Hnd & Hlk & Heq).
    exists d. split; [exact Hd|]. split; [|split].
    + intros H. apply Hnd. now apply dict_set_NoDup.
    + intros k'. rewrite Hlk. simpl rev. rewrite dict_lookup_app, dict_lookup_set.
      destruct (dict_lookup (rev (str_items kvs)) k'); [reflexivity|].
      simpl. now destruct (String.eqb k k').
    + intros H. simpl in H.
      assert (Hk : ~ In k (map fst tags)).
      { apply NoDup_remove_2 in H. intros Hin. apply H. apply in_or_app. now left. }
      rewrite Heq.
      * rewrite (dict_set_fresh _ _ _ Hk), <- app_assoc. reflexivity.
      * rewrite (dict_set_fresh _ _ _ Hk), map_app, <- app_assoc. exact H.
Qed.

(** X4: on the tokens of pairs with distinct keys, the tag map and the
    key/value map return the pairs themselves, in the order of the
    tokens. *)
Theorem TagsProp_typecheck_distinct_keys : forall self kvs,
  NoDup (map fst kvs) ->
  TagsProp_typecheck self (VList (flatten_pairs kvs)) = Ok (VDict (str_items kvs))
  /\ DictProp_typecheck self (VList (flatten_pairs kvs)) = Ok (VDict (str_items kvs)).
Proof.
  intros self kvs H.
  destruct (TagsProp_pairs_flatten kvs []) as (d & Hd & _ & _ & Heq).
  unfold TagsProp_typecheck, DictProp_typecheck. cbn [py_iter bind].
  rewrite Hd. cbn [bind]. rewrite (Heq H). split; reflexivity.
Qed.

Lemma TagsProp_typecheck_distinct_keys_witness :
  NoDup (map fst [("env", "'prod'"); ("team", "'data'")])
  /\ TagsProp_typecheck TagsProp_new
       (VList [VStr "env"; VStr "'prod'"; VStr "team"; VStr "'data'"])
     = Ok (VDict [("env", VStr "'prod'"); ("team", VStr "'data'")]).
Proof.
  assert (H : NoDup (map fst [("env", "'prod'"); ("team", "'data'")]))
    by (repeat constructor; simpl; intuition discriminate).
  split; [exact H|].
  exact (proj1 (TagsProp_typecheck_distinct_keys TagsProp_new
                  [("env", "'prod'"); ("team", "'data'")] H)).
Defined.

(** X5: when a key comes more than once among the tokens, the mapping
    keeps one entry for it, with the value of its last occurrence: the
    result has no duplicate key and looks every key up as the pairs read
    from the end do. *)
Theorem TagsProp_typecheck_last_wins : forall self kvs,
  exists d,
    TagsProp_typecheck self (VList (flatten_pairs kvs)) = Ok (VDict d)
    /\ NoDup (map fst d)
    /\ forall k, dict_lookup d k = dict_lookup (rev (str_items kvs)) k.
Proof.
  intros self kvs.
  destruct (TagsProp_pairs_flatten kvs []) as (d & Hd & Hnd & Hlk & _).
  exists d. unfold TagsProp_typecheck. cbn [py_iter bind]. rewrite Hd.
  split; [reflexivity|]. split; [apply Hnd; constructor|].
  intros k. rewrite Hlk. now destruct (dict_lookup (rev (str_items kvs)) k).
Qed.

(** X6: the tag map and the key/value map accept a token list of even
    length and refuse one of odd length with [StopIteration]; nothing is
    dropped silently. *)
Theorem TagsProp_typecheck_parity : forall self toks,
  (Nat.even (List.length toks) = true ->
   exists d, TagsProp_typecheck self (VList (map VStr toks)) = Ok (VDict d)
             /\ DictProp_typecheck self (VList (map VStr toks)) = Ok (VDict d))
  /\ (Nat.even (List.length toks) = false ->
      TagsProp_typecheck self (VList (map VStr toks)) = Raise StopIteration
      /\ DictProp_typecheck self (VList (map VStr toks)) = Raise StopIteration).
Proof.
  intros self toks.
  destruct (TagsProp_pairs_parity toks []) as [Hodd Heven].
  unfold TagsProp_typecheck, DictProp_typecheck. cbn [py_iter bind].
  split; intros H.
  - destruct (Heven H) as (d & Hd). exists d. now rewrite Hd.
  - rewrite Hodd; [split; reflexivity|].
    unfold Nat.odd. now rewrite H.
Qed.

Lemma TagsProp_typecheck_parity_witness :
  Nat.even (List.length ["a"; "1"; "b"]) = false
  /\ TagsProp_typecheck TagsProp_new (VList (map VStr ["a"; "1"; "b"]))
     = Raise StopIteration
  /\ Nat.even (List.length ["a"; "1"]) = true
  /\ exists d, TagsProp_typecheck TagsProp_new (VList (map VStr ["a"; "1"])) = Ok (VDict d)
               /\ DictProp_typecheck TagsProp_new (VList (map VStr ["a"; "1"]))
                  = Ok (VDict d).
Proof.
  split; [reflexivity|].
  split; [exact (proj1 (proj2 (TagsProp_typecheck_parity TagsProp_new ["a"; "1"; "b"])
                          eq_refl))|].
  split; [reflexivity|].
  exact (proj1 (TagsProp_typecheck_parity TagsProp_new ["a"; "1"]) eq_refl).
Defined.

(** ** Stripping *)

Lemma rstrip_if_idem p s : rstrip_if p (rstrip_if p s) = rstrip_if p s.
Proof.
  induction s as [|c s IH]; [reflexivity|].
  simpl. destruct (rstrip_if p s) as [|d r] eqn:E.
  - destruct (p c) eqn:Ec; [reflexivity|]. simpl. now rewrite Ec.
  - simpl. simpl in IH. destruct (rstrip_if p r) as [|d' r'] eqn:E'.
    + destruct (p d); [discriminate | now rewrite IH].
    + now rewrite IH.
Qed.

Lemma lstrip_if_head p s :
  lstrip_if p s = EmptyString \/ exists c r, lstrip_if p s = String c r /\ p c = false.
Proof.
  induction s as [|c s IH]; [now left|].
  simpl. destruct (p c) eqn:E; [exact IH|]. right. eauto.
Qed.

Lemma rstrip_if_head p c r :
  p c = false -> exists r', rstrip_if p (String c r) = String c r'.
Proof.
  intros H. simpl. destruct (rstrip_if p r); [rewrite H|]; eauto.
Qed.

Lemma strip_if_idem p s : strip_if p (strip_if p s) = strip_if p s.
Proof.
  unfold strip_if.
  destruct (lstrip_if_head p s) as [E|(c & r & E & Hc)]; rewrite E.
  - reflexivity.
  - destruct (rstrip_if_head p c r Hc) as (r' & E').
    rewrite E'. cbn [lstrip_if]. rewrite Hc, <- E'. apply rstrip_if_idem.
Qed.

Lemma lstrip_as_if ch s : lstrip ch s = lstrip_if (fun c => Ascii.eqb c ch) s.
Proof. induction s as [|c s IH]; simpl; [reflexivity | now rewrite IH]. Qed.

Lemma rstrip_as_if ch s : rstrip ch s = rstrip_if (fun c => Ascii.eqb c ch) s.
Proof. induction s as [|c s IH]; simpl; [reflexivity | now rewrite IH]. Qed.

Lemma strip_idem ch s : strip ch (strip ch s) = strip ch s.
Proof.
  unfold strip. rewrite !lstrip_as_if, !rstrip_as_if.
  apply strip_if_idem.
Qed.

Lemma mapM_strs {B} (f : string -> B) l :
  mapM (fun tok => match tok with
                   | VStr s => Ok (f s)
                   | _ => Raise AttributeError
                   end) (map VStr l)
  = Ok (map f l).
Proof.
  induction l as [|s l IH]; [reflexivity|]. simpl. now rewrite IH.
Qed.

(** X7: the string list keeps the number and the order of its tokens,
    strips the spaces around each, and is idempotent: what it returns,
    it returns unchanged when given it again. *)
Theorem StringListProp_typecheck_idempotent : forall self toks,
  StringListProp_typecheck self (VList (map VStr toks))
  = Ok (VList (map VStr (map (strip " ") toks)))
  /\ List.length (map (strip " ") toks) = List.length toks
  /\ StringListProp_typecheck self (VList (map VStr (map (strip " ") toks)))
     = Ok (VList (map VStr (map (strip " ") toks))).
Proof.
  intros self toks.
  assert (G : forall l, StringListProp_typecheck self (VList (map VStr l))
                        = Ok (VList (map VStr (map (strip " ") l)))).
  { intros l. unfold StringListProp_typecheck. cbn [py_iter bind].
    rewrite (mapM_strs (fun s => VStr (strip " " s))). cbn [bind].
    now rewrite map_map. }
  split; [apply G|]. split; [apply length_map|].
  rewrite G, (map_map (strip " ") (strip " ")).
  do 3 f_equal. apply map_ext. intros s. apply strip_idem.
Qed.

Lemma lstrip_if_split p s :
  exists a, s = a ++ lstrip_if p s /\ forallb p (list_ascii_of_string a) = true.
Proof.
  induction s as [|c s (a & Ha & Hp)]; [now exists EmptyString|].
  simpl. destruct (p c) eqn:E.
  - exists (String c a). simpl. rewrite E, Hp. split; [now rewrite <- Ha | reflexivity].
  - now exists EmptyString.
Qed.

Lemma rstrip_if_split p s :
  exists b, s = rstrip_if p s ++ b /\ forallb p (list_ascii_of_string b) = true.
Proof.
  induction s as [|c s (b & Hb & Hp)]; [now exists EmptyString|].
  simpl. destruct (rstrip_if p s) as [|d r] eqn:E.
  - simpl in Hb. subst b. destruct (p c) eqn:Ec.
    + exists (String c s). simpl. now rewrite Ec, Hp.
    + exists s. now split.
  - exists b. split; [|exact Hp]. simpl in *. now rewrite <- Hb.
Qed.

Lemma lstrip_if_strip p s : lstrip_if p (strip_if p s) = strip_if p s.
Proof.
  unfold strip_if.
  destruct (lstrip_if_head p s) as [E|(c & r & E & Hc)]; rewrite E.
  - reflexivity.
  - destruct (rstrip_if_head p c r Hc) as (r' & E').
    rewrite E'. cbn [lstrip_if]. now rewrite Hc.
Qed.

Lemma rstrip_if_strip p s : rstrip_if p (strip_if p s) = strip_if p s.
Proof. unfold strip_if. apply rstrip_if_idem. Qed.

(** what [strip] does: the input is the result between two runs of the
    stripped characters, and the result neither begins nor ends with one *)
Lemma strip_if_spec p s :
  exists a b,
    s = a ++ strip_if p s ++ b
    /\ forallb p (list_ascii_of_string a) = true
    /\ forallb p (list_ascii_of_string b) = true
    /\ lstrip_if p (strip_if p s) = strip_if p s
    /\ rstrip_if p (strip_if p s) = strip_if p s.
Proof.
  destruct (lstrip_if_split p s) as (a & Ha & Hpa).
  destruct (rstrip_if_split p (lstrip_if p s)) as (b & Hb & Hpb).
  exists a, b. unfold strip_if at 1. rewrite <- Hb.
  repeat split; auto using lstrip_if_strip, rstrip_if_strip.
Qed.

(** X8: the text of an expression is the result of [typecheck] between
    two runs of white space: [typecheck] returns the text without the
    white space at its two ends and nothing else changed, and returns that
    result unchanged when given it again. *)
Theorem ExpressionProp_typecheck_idempotent : forall self s,
  exists a t b,
    s = a ++ t ++ b
    /\ forallb is_py_space (list_ascii_of_string a) = true
    /\ forallb is_py_space (list_ascii_of_string b) = true
    /\ lstrip_if is_py_space t = t
    /\ rstrip_if is_py_space t = t
    /\ ExpressionProp_typecheck self (VStr s) = Ok (VStr t)
    /\ ExpressionProp_typecheck self (VStr t) = Ok (VStr t).
Proof.
  intros self s.
  destruct (strip_if_spec is_py_space s) as (a & b & Hs & Ha & Hb & Hl & Hr).
  exists a, (strip_if is_py_space s), b.
  repeat split; auto.
  unfold ExpressionProp_typecheck. now rewrite strip_if_idem.
Qed.

Lemma rstrip_if_snoc p s c : p c = true ->
  rstrip_if p (s ++ String c EmptyString) = rstrip_if p s.
Proof.
  intros Hc. induction s as [|d s IH]; simpl; [now rewrite Hc | now rewrite IH].
Qed.

Lemma strip_if_wrapped p a b s : p a = true -> p b = true ->
  strip_if p (String a (s ++ String b EmptyString)) = strip_if p s.
Proof.
  intros Ha Hb. unfold strip_if. cbn [lstrip_if]. rewrite Ha.
  induction s as [|d s IH]; simpl.
  - now rewrite Hb.
  - destruct (p d) eqn:Hd; [exact IH|].
    change (String d (s ++ String b EmptyString))
      with (String d s ++ String b EmptyString).
    now rewrite rstrip_if_snoc.
Qed.

Lemma strip_if_snoc p s c : p c = true ->
  strip_if p (s ++ String c EmptyString) = strip_if p s.
Proof.
  intros Hc. unfold strip_if.
  induction s as [|d s IH]; simpl; [now rewrite Hc|].
  destruct (p d) eqn:Hd; [exact IH|].
  change (String d (s ++ String c EmptyString))
    with (String d s ++ String c EmptyString).
  now rewrite rstrip_if_snoc.
Qed.

Lemma strip_if_fixed p e :
  lstrip_if p e = e -> rstrip_if p e = e -> strip_if p e = e.
Proof. intros Hl Hr. unfold strip_if. now rewrite Hl. Qed.

(** X9: the condition of an alert is stripped of every parenthesis at its
    two ends and then of the white space at its two ends: the input is the
    result between those runs.  So not one pair of parentheses goes: a
    condition [e] written as [(e))] comes back as [e], the closing
    parenthesis of a call at its end lost with the outer one. *)
Theorem AlertConditionProp_typecheck_strips_all_parens :
  (forall self s,
     exists a c t d b,
       s = a ++ (c ++ t ++ d) ++ b
       /\ forallb is_paren (list_ascii_of_string a) = true
       /\ forallb is_paren (list_ascii_of_string b) = true
       /\ forallb is_py_space (list_ascii_of_string c) = true
       /\ forallb is_py_space (list_ascii_of_string d) = true
       /\ lstrip_if is_paren (c ++ t ++ d) = c ++ t ++ d
       /\ rstrip_if is_paren (c ++ t ++ d) = c ++ t ++ d
       /\ lstrip_if is_py_space t = t
       /\ rstrip_if is_py_space t = t
       /\ AlertConditionProp_typecheck self (VStr s) = Ok (VStr t))
  /\ (forall self e,
        lstrip_if is_paren e = e -> rstrip_if is_paren e = e ->
        lstrip_if is_py_space e = e -> rstrip_if is_py_space e = e ->
        AlertConditionProp_typecheck self (VStr ("(" ++ e ++ "))")) = Ok (VStr e)).
Proof.
  split.
  - intros self s.
    destruct (strip_if_spec is_paren s) as (a & b & Hs & Ha & Hb & Hl & Hr).
    destruct (strip_if_spec is_py_space (strip_if is_paren s))
      as (c & d & Hu & Hc & Hd & Hl' & Hr').
    exists a, c, (strip_if is_py_space (strip_if is_paren s)), d, b.
    rewrite <- Hu. repeat split; auto.
  - intros self e H1 H2 H3 H4. unfold AlertConditionProp_typecheck.
    replace ("(" ++ e ++ "))") with (String "(" ((e ++ ")") ++ ")")).
    + rewrite (strip_if_wrapped is_paren "(" ")" (e ++ ")") eq_refl eq_refl).
      rewrite (strip_if_snoc is_paren e ")" eq_refl).
      now rewrite (strip_if_fixed _ _ H1 H2), (strip_if_fixed _ _ H3 H4).
    + simpl. f_equal. clear. induction e as [|x e IH]; simpl; [reflexivity | now rewrite IH].
Qed.

Lemma AlertConditionProp_typecheck_strips_all_parens_witness :
  lstrip_if is_paren "select f(x" = "select f(x"
  /\ rstrip_if is_paren "select f(x" = "select f(x"
  /\ lstrip_if is_py_space "select f(x" = "select f(x"
  /\ rstrip_if is_py_space "select f(x" = "select f(x"
  /\ AlertConditionProp_typecheck ColumnsProp_new (VStr ("(" ++ "select f(x" ++ "))"))
     = Ok (VStr "select f(x").
Proof.
  split; [reflexivity|]. split; [reflexivity|].
  split; [reflexivity|]. split; [reflexivity|].
  exact (proj2 AlertConditionProp_typecheck_strips_all_parens ColumnsProp_new
           "select f(x" eq_refl eq_refl eq_refl eq_refl).
Defined.

(** ** What the enum descriptors return *)

Lemma enum_call_again T raw m :
  enum_call T raw = Ok m -> enum_call T (VEnum m) = Ok m.
Proof.
  intros H. apply enum_call_member in H. simpl. now rewrite H.
Qed.

(** X10: what the enum descriptor returns is a member of its enumeration
    class and of its allowed members, and [typecheck] returns it again
    when given it. *)
Theorem EnumProp_typecheck_sound : forall self raw v,
  EnumProp_typecheck self raw = Ok v ->
  exists m, v = VEnum m
    /\ member_in m (enum_members (enum_type self)) = true
    /\ member_in m (valid_values self) = true
    /\ EnumProp_typecheck self v = Ok v.
Proof.
  intros self raw v. unfold EnumProp_typecheck.
  destruct (enum_call (enum_type self) raw) as [m|e] eqn:E; [|discriminate].
  cbn [bind]. destruct (member_in m (valid_values self)) eqn:Hm; [|discriminate].
  intros [= <-]. exists m. split; [reflexivity|].
  split; [now apply enum_call_member in E|]. split; [exact Hm|].
  rewrite (enum_call_again _ _ _ E). cbn [bind]. now rewrite Hm.
Qed.

Lemma EnumProp_typecheck_sound_witness :
  EnumProp_typecheck
    (EnumProp_new "COLOR" (AList Color [RED; BLUE]) true false [] (ConsumeList []))
    (VStr "BLUE") = Ok (VEnum BLUE)
  /\ exists m, VEnum BLUE = VEnum m
       /\ member_in m (enum_members Color) = true
       /\ member_in m [RED; BLUE] = true
       /\ EnumProp_typecheck
            (EnumProp_new "COLOR" (AList Color [RED; BLUE]) true false []
               (ConsumeList []))
            (VEnum BLUE) = Ok (VEnum BLUE).
Proof.
  split; [reflexivity|].
  exact (EnumProp_typecheck_sound
           (EnumProp_new "COLOR" (AList Color [RED; BLUE]) true false [] (ConsumeList []))
           (VStr "BLUE") (VEnum BLUE) eq_refl).
Defined.

Lemma EnumListProp_validate_ok allowed ms :
  EnumListProp_validate allowed ms = Ok tt ->
  forallb (fun m => member_in m allowed) ms = true.
Proof.
  induction ms as [|m ms IH]; [reflexivity|].
  simpl. destruct (member_in m allowed); [|discriminate]. exact IH.
Qed.

(** X11: the enum list is all or nothing: when it returns, it returns one
    member for each element of its input, in order, each the conversion
    of that element and each among the allowed members. *)
Theorem EnumListProp_typecheck_sound : forall self raws v,
  EnumListProp_typecheck self (VList raws) = Ok v ->
  exists ms, v = VList (map VEnum ms)
    /\ List.length ms = List.length raws
    /\ Forall2 (fun raw m => enum_call (enum_type self) raw = Ok m) raws ms
    /\ forallb (fun m => member_in m (valid_values self)) ms = true.
Proof.
  intros self raws v. unfold EnumListProp_typecheck. cbn [py_iter bind].
  destruct (mapM (enum_call (enum_type self)) raws) as [ms|e] eqn:E; [|discriminate].
  cbn [bind].
  destruct (EnumListProp_validate (valid_values self) ms) as [[]|e] eqn:Ev;
    [|discriminate].
  cbn [bind]. intros [= <-]. exists ms.
  destruct (mapM_Forall2 _ _ _ E) as [Hlen Hall].
  split; [reflexivity|]. split; [exact Hlen|]. split; [exact Hall|].
  now apply EnumListProp_validate_ok.
Qed.

Lemma EnumListProp_typecheck_sound_witness :
  EnumListProp_typecheck
    (EnumListProp_new "COLORS" (AnEnum Color) false true [] (ConsumeList []))
    (VList [VStr "RED"; VEnum BLUE]) = Ok (VList [VEnum RED; VEnum BLUE])
  /\ exists ms, VList [VEnum RED; VEnum BLUE] = VList (map VEnum ms)
       /\ List.length ms = 2
       /\ Forall2 (fun raw m => enum_call Color raw = Ok m) [VStr "RED"; VEnum BLUE] ms
       /\ forallb (fun m => member_in m (enum_members Color)) ms = true.
Proof.
  split; [reflexivity|].
  exact (EnumListProp_typecheck_sound
           (EnumListProp_new "COLORS" (AnEnum Color) false true [] (ConsumeList []))
           [VStr "RED"; VEnum BLUE] (VList [VEnum RED; VEnum BLUE]) eq_refl).
Defined.

Lemma mapM_first_error {A B} (f : A -> result B) pre x post e :
  (forall a, In a pre -> exists b, f a = Ok b) -> f x = Raise e ->
  mapM f (pre ++ x :: post) = Raise e.
Proof.
  intros Hpre Hx. induction pre as [|a pre IH]; simpl.
  - now rewrite Hx.
  - destruct (Hpre a (or_introl eq_refl)) as (b & ->). cbn [bind].
    rewrite IH; [reflexivity|]. intros a' Ha'. apply Hpre. now right.
Qed.

(** X12: the enum list converts all its elements before it looks at the
    allowed members: an element that is no value of the enumeration class
    is reported with the error of the conversion, also when a member
    outside the allowed list comes before it. *)
Theorem EnumListProp_typecheck_converts_first : forall self pre raw post e,
  (forall x, In x pre -> exists m, enum_call (enum_type self) x = Ok m) ->
  enum_call (enum_type self) raw = Raise e ->
  EnumListProp_typecheck self (VList (pre ++ raw :: post)) = Raise e.
Proof.
  intros self pre raw post e Hpre Hraw.
  unfold EnumListProp_typecheck. cbn [py_iter bind].
  now rewrite (mapM_first_error _ _ _ _ _ Hpre Hraw).
Qed.

Lemma EnumListProp_typecheck_converts_first_witness :
  (forall x, In x [VStr "GREEN"] -> exists m, enum_call Color x = Ok m)
  /\ enum_call Color (VStr "purple") = Raise (NotAValidMember (VStr "purple") "Color")
  /\ EnumListProp_typecheck
       (EnumListProp_new "COLORS" (AList Color [RED; BLUE]) false true []
          (ConsumeList []))
       (VList ([VStr "GREEN"] ++ VStr "purple" :: [VStr "RED"]))
     = Raise (NotAValidMember (VStr "purple") "Color").
Proof.
  assert (H : forall x, In x [VStr "GREEN"] -> exists m, enum_call Color x = Ok m).
  { intros x [<-|[]]. now exists GREEN. }
  split; [exact H|]. split; [reflexivity|].
  exact (EnumListProp_typecheck_converts_first
           (EnumListProp_new "COLORS" (AList Color [RED; BLUE]) false true []
              (ConsumeList []))
           [VStr "GREEN"] (VStr "purple") [VStr "RED"] _ H eq_refl).
Defined.

(** ** The column list *)

Lemma ColumnsProp_column_ok col :
  column_ok col = true -> exists text, ColumnsProp_column (VDict col) = Ok text.
Proof.
  unfold column_ok, ColumnsProp_column, dict_getitem, dict_get.
  destruct (dict_lookup col "name") as [n|]; [|discriminate].
  destruct (dict_lookup col "data_type") as [t|]; [|discriminate].
  intros _. destruct (dict_lookup col "comment") as [c|]; cbn [truthy bind].
  - destruct (truthy c); cbn [bind]; eauto.
  - eauto.
Qed.

Lemma mapM_total {A B} (f : A -> result B) l :
  (forall a, In a l -> exists b, f a = Ok b) ->
  exists bs, mapM f l = Ok bs /\ List.length bs = List.length l.
Proof.
  induction l as [|a l IH]; intros H.
  - now exists [].
  - destruct (H a (or_introl eq_refl)) as (b & Hb).
    destruct IH as (bs & Hbs & Hlen); [intros a' Ha'; apply H; now right|].
    exists (b :: bs). simpl. rewrite Hb, Hbs. simpl. now rewrite Hlen.
Qed.

(** X13: the column list renders every sequence of column records that
    have a name and a data type, a comment or not, as one parenthesized
    text with one part for each column. *)
Theorem ColumnsProp_render_columns : forall self cols,
  forallb column_ok cols = true ->
  exists texts,
    ColumnsProp_render self (VList (map VDict cols))
    = Ok (VStr ("(" ++ join ", " texts ++ ")"))
    /\ List.length texts = List.length cols.
Proof.
  intros self cols H. unfold ColumnsProp_render. cbn [py_iter bind].
  destruct (mapM_total ColumnsProp_column (map VDict cols)) as (texts & Ht & Hlen).
  - intros a Ha. apply in_map_iff in Ha as (col & <- & Hcol).
    apply ColumnsProp_column_ok. rewrite forallb_forall in H. now apply H.
  - exists texts. rewrite Ht. cbn [bind]. split; [reflexivity|].
    now rewrite Hlen, length_map.
Qed.

Lemma ColumnsProp_render_columns_witness :
  forallb column_ok
    [[("name", VStr "id"); ("data_type", VStr "INT")];
     [("name", VStr "n"); ("data_type", VStr "VARCHAR"); ("comment", VStr "x")]] = true
  /\ ColumnsProp_render ColumnsProp_new
       (VList (map VDict
          [[("name", VStr "id"); ("data_type", VStr "INT")];
           [("name", VStr "n"); ("data_type", VStr "VARCHAR"); ("comment", VStr "x")]]))
     = Ok (VStr "(id INT, n VARCHAR COMMENT 'x')")
  /\ exists texts,
       ColumnsProp_render ColumnsProp_new
         (VList (map VDict
            [[("name", VStr "id"); ("data_type", VStr "INT")];
             [("name", VStr "n"); ("data_type", VStr "VARCHAR"); ("comment", VStr "x")]]))
       = Ok (VStr ("(" ++ join ", " texts ++ ")"))
       /\ List.length texts = 2.
Proof.
  split; [reflexivity|]. split; [reflexivity|].
  exact (ColumnsProp_render_columns ColumnsProp_new
           [[("name", VStr "id"); ("data_type", VStr "INT")];
            [("name", VStr "n"); ("data_type", VStr "VARCHAR"); ("comment", VStr "x")]]
           eq_refl).
Defined.

(** X14: a column record without a name, or with a name and without a
    data type, makes the column list raise the [KeyError] of that key,
    when the records before it are complete; a missing or empty comment
    is no error. *)
Theorem ColumnsProp_render_missing_key : forall self pre col post,
  forallb column_ok pre = true ->
  (dict_lookup col "name" = None ->
   ColumnsProp_render self (VList (map VDict (pre ++ col :: post)))
   = Raise (KeyError "name"))
  /\ (dict_lookup col "name" <> None -> dict_lookup col "data_type" = None ->
      ColumnsProp_render self (VList (map VDict (pre ++ col :: post)))
      = Raise (KeyError "data_type")).
Proof.
  intros self pre col post Hpre.
  assert (G : forall e, ColumnsProp_column (VDict col) = Raise e ->
              ColumnsProp_render self (VList (map VDict (pre ++ col :: post)))
              = Raise e).
  { intros e He. unfold ColumnsProp_render. cbn [py_iter bind].
    rewrite map_app. cbn [map].
    rewrite (mapM_first_error ColumnsProp_column (map VDict pre) (VDict col) _ e);
      [reflexivity | | exact He].
    intros a Ha. apply in_map_iff in Ha as (c & <- & Hc).
    apply ColumnsProp_column_ok. rewrite forallb_forall in Hpre. now apply Hpre. }
  assert (C : exists comment,
            (if truthy (dict_get col "comment")
             then c <- dict_getitem col "comment" ;; Ok (" COMMENT '" ++ py_str c ++ "'")
             else Ok EmptyString) = Ok comment).
  { unfold dict_get, dict_getitem.
    destruct (dict_lookup col "comment") as [c|]; cbn [truthy]; [|eauto].
    destruct (truthy c); cbn [bind]; eauto. }
  destruct C as (comment & Hc).
  split.
  - intros Hn. apply G. unfold ColumnsProp_column. rewrite Hc. cbn [bind].
    unfold dict_getitem. now rewrite Hn.
  - intros Hn Ht. apply G. unfold ColumnsProp_column. rewrite Hc. cbn [bind].
    unfold dict_getitem. destruct (dict_lookup col "name"); [|congruence].
    cbn [bind]. now rewrite Ht.
Qed.

Lemma ColumnsProp_render_missing_key_witness :
  forallb column_ok [[("name", VStr "id"); ("data_type", VStr "INT")]] = true
  /\ dict_lookup [("data_type", VStr "INT")] "name" = None
  /\ ColumnsProp_render ColumnsProp_new
       (VList (map VDict ([[("name", VStr "id"); ("data_type", VStr "INT")]]
                          ++ [("data_type", VStr "INT")] :: [])))
     = Raise (KeyError "name")
  /\ dict_lookup [("name", VStr "n")] "name" <> None
  /\ dict_lookup [("name", VStr "n")] "data_type" = None
  /\ ColumnsProp_render ColumnsProp_new
       (VList (map VDict ([[("name", VStr "id"); ("data_type", VStr "INT")]]
                          ++ [("name", VStr "n")] :: [])))
     = Raise (KeyError "data_type").
Proof.
  split; [reflexivity|]. split; [reflexivity|].
  split; [exact (proj1 (ColumnsProp_render_missing_key ColumnsProp_new
                          [[("name", VStr "id"); ("data_type", VStr "INT")]]
                          [("data_type", VStr "INT")] [] eq_refl) eq_refl)|].
  split; [discriminate|]. split; [reflexivity|].
  exact (proj2 (ColumnsProp_render_missing_key ColumnsProp_new
                  [[("name", VStr "id"); ("data_type", VStr "INT")]]
                  [("name", VStr "n")] [] eq_refl) ltac:(discriminate) eq_refl).
Defined.

(** ** Flags, filler words and identifiers *)

(** X15: a flag whose label is ASCII text and a sequence of keywords
    renders [True] as its label in upper case, and parses its label,
    written in any case and followed by the end of the input or by anything
    but an identifier character, to [True]; so it parses what it renders. *)
Theorem FlagProp_parse_any_case : forall lbl,
  ascii_text lbl = true -> wf_label lbl = true ->
  FlagProp_render (FlagProp_new lbl) (VBool true) = Ok (VStr (upper lbl))
  /\ (forall t rest, upper t = upper lbl -> boundary rest = true ->
      FlagProp_parse (FlagProp_new lbl) (t ++ rest) = Ok (VBool true))
  /\ FlagProp_parse (FlagProp_new lbl) (upper lbl) = Ok (VBool true).
Proof.
  intros lbl _ Hl.
  assert (G : forall t rest, upper t = upper lbl -> boundary rest = true ->
      FlagProp_parse (FlagProp_new lbl) (t ++ rest) = Ok (VBool true)).
  { intros t rest Ht Hr. unfold FlagProp_parse, Prop_parse, FlagProp_new, set_parser.
    cbn [parser ve_parser]. now rewrite (Keywords_caseless _ _ _ Hl Ht Hr). }
  split; [reflexivity|]. split; [exact G|].
  rewrite <- (append_empty_r (upper lbl)). apply G; [apply upper_idem | reflexivity].
Qed.

Lemma FlagProp_parse_any_case_witness :
  ascii_text "if not exists" = true
  /\ wf_label "if not exists" = true
  /\ upper "If Not Exists" = upper "if not exists"
  /\ boundary " t (id INT)" = true
  /\ FlagProp_render (FlagProp_new "if not exists") (VBool true)
     = Ok (VStr "IF NOT EXISTS")
  /\ FlagProp_parse (FlagProp_new "if not exists") ("If Not Exists" ++ " t (id INT)")
     = Ok (VBool true)
  /\ FlagProp_parse (FlagProp_new "if not exists") "IF NOT EXISTS" = Ok (VBool true).
Proof.
  split; [reflexivity|]. split; [reflexivity|]. split; [reflexivity|].
  split; [reflexivity|].
  destruct (FlagProp_parse_any_case "if not exists" eq_refl eq_refl)
    as (Hr & Hany & Hup).
  split; [exact Hr|].
  split; [exact (Hany "If Not Exists" " t (id INT)" eq_refl eq_refl) | exact Hup].
Defined.

Lemma And_suppressed p ps s r :
  p s = Some ([], r) -> And (p :: ps) s = And ps r.
Proof. intros H. cbn [And]. rewrite H. now destruct (And ps r) as [[ts r']|]. Qed.

Lemma And_step p ps s t r :
  p s = Some (t, r) ->
  And (p :: ps) s
  = match And ps r with
    | Some (ts, r') => Some ((t ++ ts)%list, r')
    | None => None
    end.
Proof. intros H. cbn [And]. now rewrite H. Qed.

Lemma Opt_filler_taken w t r :
  word_ok w = true -> upper t = upper w -> boundary r = true ->
  suppress (And [Opt (Keyword w)]) (t ++ r) = Some ([], r).
Proof.
  intros Hw Ht Hr. unfold suppress, Opt. cbn [And].
  now rewrite (Keyword_caseless _ _ _ Hw Ht Hr).
Qed.

Lemma Opt_filler_skipped w s :
  Keyword w s = None -> suppress (And [Opt (Keyword w)]) s = Some ([], s).
Proof. intros H. unfold suppress, Opt. cbn [And]. now rewrite H. Qed.

Lemma Keyword_other_letter t r :
  upper t = "TAG" -> Keyword "WITH" (t ++ r) = None.
Proof.
  destruct t as [|c t]; [discriminate|]. simpl. intros [= Hc _].
  unfold Keyword. cbn [append skip_ws].
  rewrite <- (is_space_upper c), Hc. cbn [is_space Ascii.eqb Bool.eqb orb skip_ws].
  cbn [caseless_prefix]. now rewrite Hc.
Qed.

Lemma is_word_c_not_space c : is_word_c c = true -> is_space c = false.
Proof.
  destruct c as [[] [] [] [] [] [] [] []]; intros H;
    first [reflexivity | discriminate H].
Qed.

Lemma span_word w : forall c r,
  forallb is_word_c (list_ascii_of_string w) = true -> is_word_c c = false ->
  span is_word_c (w ++ String c r) = (w, String c r).
Proof.
  induction w as [|d w IH]; intros c r Hw Hc; simpl.
  - now rewrite Hc.
  - simpl in Hw. apply andb_true_iff in Hw as [Hd Hw].
    now rewrite Hd, (IH _ _ Hw Hc).
Qed.

Lemma Word_word w c r :
  is_word w = true -> is_word_c c = false ->
  Word is_word_c (w ++ String c r) = Some ([w], String c r).
Proof.
  intros Hw Hc. unfold Word. destruct w as [|d w]; [discriminate|].
  unfold is_word in Hw.
  assert (Hd : is_word_c d = true)
    by (simpl in Hw; now apply andb_true_iff in Hw as [Hd _]).
  replace (skip_ws (String d w ++ String c r)) with (String d w ++ String c r)
    by (simpl; now rewrite (is_word_c_not_space _ Hd)).
  rewrite (span_word _ _ _ Hw Hc). reflexivity.
Qed.

Lemma ANY_word w c r :
  is_word w = true -> is_word_c c = false ->
  ANY (w ++ String c r) = Some ([w], String c r).
Proof. intros Hw Hc. unfold ANY. cbn [MatchFirst]. now rewrite (Word_word _ _ _ Hw Hc). Qed.

Lemma ANY_skip_space s : ANY (String " " s) = ANY s.
Proof. reflexivity. Qed.

(** the parenthesized pairs of the tag map, on one pair of bare words *)
Lemma tag_pairs_one k v :
  is_word k = true -> is_word v = true ->
  _in_parens (DelimitedList (And [ANY; EQUALS; ANY])) (" (" ++ k ++ " = " ++ v ++ ")")
  = Some ([k; v], EmptyString).
Proof.
  intros Hk Hv. unfold _in_parens.
  rewrite (And_suppressed (suppress (Literal "(")) _ (" (" ++ k ++ " = " ++ v ++ ")")
             (k ++ " = " ++ v ++ ")") eq_refl).
  assert (E : DelimitedList (And [ANY; EQUALS; ANY]) (k ++ " = " ++ v ++ ")")
              = Some ([k; v], ")")).
  { assert (A1 : ANY (k ++ " = " ++ v ++ ")") = Some ([k], " = " ++ v ++ ")"))
      by exact (ANY_word k " " ("= " ++ v ++ ")") Hk eq_refl).
    assert (A2 : ANY (" " ++ v ++ ")") = Some ([v], ")"))
      by exact (ANY_word v ")" EmptyString Hv eq_refl).
    unfold DelimitedList.
    rewrite (And_step _ _ _ _ _ A1).
    assert (A0 : EQUALS (" = " ++ v ++ ")") = Some ([], " " ++ v ++ ")")) by reflexivity.
    rewrite (And_suppressed _ _ _ _ A0).
    rewrite (And_step _ _ _ _ _ A2).
    reflexivity. }
  rewrite (And_step _ _ _ _ _ E). reflexivity.
Qed.

(** X16: the filler word of the tag map is optional and is taken before
    the label or after it.  With the filler [WITH] and the label [TAG]
    written in any case, the clause with the filler in either place parses
    as the clause without it, whatever stands between its parentheses; and
    the clause without it is accepted: on one pair of bare words it gives
    the mapping of that pair. *)
Theorem TagsProp_parse_optional_WITH : forall w tg,
  upper w = "WITH" -> upper tg = "TAG" ->
  (forall body,
     TagsProp_parse TagsProp_new (w ++ " " ++ tg ++ " (" ++ body)
     = TagsProp_parse TagsProp_new (tg ++ " (" ++ body)
     /\ TagsProp_parse TagsProp_new (tg ++ " " ++ w ++ " (" ++ body)
        = TagsProp_parse TagsProp_new (tg ++ " (" ++ body))
  /\ (forall k v, is_word k = true -> is_word v = true ->
      TagsProp_parse TagsProp_new (tg ++ " (" ++ k ++ " = " ++ v ++ ")")
      = Ok (VDict [(k, VStr v)])
      /\ TagsProp_parse TagsProp_new (w ++ " " ++ tg ++ " (" ++ k ++ " = " ++ v ++ ")")
         = Ok (VDict [(k, VStr v)])
      /\ TagsProp_parse TagsProp_new (tg ++ " " ++ w ++ " (" ++ k ++ " = " ++ v ++ ")")
         = Ok (VDict [(k, VStr v)])).
Proof.
  intros w tg Hw Htg.
  set (filler := suppress (And [Opt (Keyword "WITH")])).
  set (lab := suppress (Keywords "TAG")).
  set (vp := _in_parens (DelimitedList (And [ANY; EQUALS; ANY]))).
  assert (Hp : parser TagsProp_new = And [filler; lab; filler; vp]) by reflexivity.
  assert (Hlab : forall r, boundary r = true -> lab (tg ++ r) = Some ([], r)).
  { intros r Hr. unfold lab, suppress.
    now rewrite (Keywords_caseless "TAG" tg r eq_refl Htg Hr). }
  assert (Hskip : forall r, filler (tg ++ r) = Some ([], tg ++ r)).
  { intros r. apply Opt_filler_skipped, Keyword_other_letter, Htg. }
  assert (Hopen : forall body, filler (" (" ++ body) = Some ([], " (" ++ body))
    by reflexivity.
  assert (Htaken : forall r, boundary r = true -> filler (" " ++ w ++ r) = Some ([], r)).
  { intros r Hr. change (" " ++ w ++ r) with (String " " (w ++ r)).
    unfold filler, suppress, Opt. cbn [And]. rewrite Keyword_skip_space.
    now rewrite (Keyword_caseless "WITH" w r eq_refl Hw Hr). }
  assert (Hplain : forall body,
            parser TagsProp_new (tg ++ " (" ++ body) = And [vp] (" (" ++ body)).
  { intros body. rewrite Hp.
    rewrite (And_suppressed _ _ _ _ (Hskip _)).
    rewrite (And_suppressed _ _ _ _ (Hlab (" (" ++ body) eq_refl)).
    now rewrite (And_suppressed _ _ _ _ (Hopen body)). }
  assert (Hbefore : forall body,
            parser TagsProp_new (w ++ " " ++ tg ++ " (" ++ body) = And [vp] (" (" ++ body)).
  { intros body. rewrite Hp.
    rewrite (And_suppressed _ _ _ _
               (Opt_filler_taken "WITH" w (" " ++ tg ++ " (" ++ body) eq_refl Hw eq_refl)).
    assert (El : lab (" " ++ tg ++ " (" ++ body) = Some ([], " (" ++ body)).
    { change (" " ++ tg ++ " (" ++ body) with (String " " (tg ++ " (" ++ body)).
      unfold lab, suppress. rewrite Keywords_skip_space.
      now rewrite (Keywords_caseless "TAG" tg (" (" ++ body) eq_refl Htg eq_refl). }
    rewrite (And_suppressed _ _ _ _ El).
    now rewrite (And_suppressed _ _ _ _ (Hopen body)). }
  assert (Hafter : forall body,
            parser TagsProp_new (tg ++ " " ++ w ++ " (" ++ body) = And [vp] (" (" ++ body)).
  { intros body. rewrite Hp.
    rewrite (And_suppressed _ _ _ _ (Hskip _)).
    rewrite (And_suppressed _ _ _ _ (Hlab (" " ++ w ++ " (" ++ body) eq_refl)).
    now rewrite (And_suppressed _ _ _ _ (Htaken (" (" ++ body) eq_refl)). }
  assert (Heq : forall body,
     TagsProp_parse TagsProp_new (w ++ " " ++ tg ++ " (" ++ body)
     = TagsProp_parse TagsProp_new (tg ++ " (" ++ body)
     /\ TagsProp_parse TagsProp_new (tg ++ " " ++ w ++ " (" ++ body)
        = TagsProp_parse TagsProp_new (tg ++ " (" ++ body)).
  { intros body. unfold TagsProp_parse, Prop_parse.
    now rewrite Hplain, Hbefore, Hafter. }
  split; [exact Heq|].
  intros k v Hk Hv.
  assert (Hone : TagsProp_parse TagsProp_new (tg ++ " (" ++ k ++ " = " ++ v ++ ")")
                 = Ok (VDict [(k, VStr v)])).
  { unfold TagsProp_parse, Prop_parse. rewrite Hplain.
    cbn [And]. unfold vp. rewrite (tag_pairs_one _ _ Hk Hv). reflexivity. }
  destruct (Heq (k ++ " = " ++ v ++ ")")) as [E1 E2].
  split; [exact Hone|]. split; [now rewrite E1 | now rewrite E2].
Qed.

Lemma TagsProp_parse_optional_WITH_witness :
  upper "With" = "WITH"
  /\ upper "tag" = "TAG"
  /\ is_word "env" = true
  /\ is_word "prod" = true
  /\ TagsProp_parse TagsProp_new ("tag" ++ " (" ++ "env" ++ " = " ++ "prod" ++ ")")
     = Ok (VDict [("env", VStr "prod")])
  /\ TagsProp_parse TagsProp_new ("With" ++ " " ++ "tag" ++ " (" ++ "env" ++ " = " ++ "prod" ++ ")")
     = Ok (VDict [("env", VStr "prod")])
  /\ TagsProp_parse TagsProp_new ("tag" ++ " " ++ "With" ++ " (" ++ "env" ++ " = " ++ "prod" ++ ")")
     = Ok (VDict [("env", VStr "prod")]).
Proof.
  split; [reflexivity|]. split; [reflexivity|].
  split; [reflexivity|]. split; [reflexivity|].
  exact (proj2 (TagsProp_parse_optional_WITH "With" "tag" eq_refl eq_refl)
           "env" "prod" eq_refl eq_refl).
Defined.

Lemma EnumProp_parse_caseless_witness :
  wf_label "COLOR" = true
  /\ wf_label (member_value BLUE) = true
  /\ NoDup (map member_value (enum_members Color))
  /\ incl [RED; BLUE] (enum_members Color)
  /\ In BLUE [RED; BLUE]
  /\ upper "Blue" = upper (member_value BLUE)
  /\ exists m', In m' [RED; BLUE]
       /\ EnumProp_parse
            (EnumProp_new "COLOR" (AList Color [RED; BLUE]) true false []
               (ConsumeList []))
            (upper "COLOR" ++ " = " ++ "Blue") = Ok (VEnum m').
Proof.
  assert (Hnd : NoDup (map member_value (enum_members Color)))
    by (repeat constructor; simpl; intuition discriminate).
  assert (Hincl : incl [RED; BLUE] (enum_members Color))
    by (intros x [<-|[<-|[]]]; simpl; auto).
  assert (Hin : In BLUE [RED; BLUE]) by (simpl; auto).
  split; [reflexivity|]. split; [reflexivity|]. split; [exact Hnd|].
  split; [exact Hincl|]. split; [exact Hin|]. split; [reflexivity|].
  exact (EnumProp_parse_caseless "COLOR" (AList Color [RED; BLUE]) true [] BLUE "Blue"
           eq_refl eq_refl Hnd Hincl Hin eq_refl).
Defined.

Lemma BoolProp_parse_trailing_text_witness :
  wf_label "auto_resume" = true
  /\ BoolProp_parse (BoolProp_new "auto_resume" true false [] (ConsumeList []))
       (upper "auto_resume" ++ " = " ++ "FALSE" ++ " " ++ "COMMENT = 'x'")
     = Ok (VBool false).
Proof.
  split; [reflexivity|].
  exact (BoolProp_parse_trailing_text "auto_resume" true [] false "COMMENT = 'x'" eq_refl).
Defined.

Lemma split_no_sep sep w : no_char sep w = true -> split sep w = [w].
Proof.
  unfold no_char. induction w as [|c w IH]; [reflexivity|].
  simpl. intros H. apply andb_true_iff in H as [Hc Hw].
  destruct (Ascii.eqb c sep); [discriminate|]. now rewrite (IH Hw).
Qed.

Lemma split_app_sep sep w rest :
  no_char sep w = true ->
  split sep (w ++ String sep rest) = w :: split sep rest.
Proof.
  unfold no_char. induction w as [|c w IH]; simpl.
  - intros _. now rewrite Ascii.eqb_refl.
  - intros H. apply andb_true_iff in H as [Hc Hw].
    destruct (Ascii.eqb c sep); [discriminate|]. now rewrite (IH Hw).
Qed.

Lemma split_join sep parts :
  parts <> [] -> forallb (no_char sep) parts = true ->
  split sep (join (String sep EmptyString) parts) = parts.
Proof.
  unfold join. induction parts as [|w parts IH]; [congruence|].
  intros _ H. simpl in H. apply andb_true_iff in H as [Hw Hparts].
  destruct parts as [|w' parts].
  - simpl. now apply split_no_sep.
  - change (String.concat (String sep EmptyString) (w :: w' :: parts))
      with (w ++ String sep (String.concat (String sep EmptyString) (w' :: parts))).
    rewrite (split_app_sep _ _ _ Hw), IH; [reflexivity | discriminate | exact Hparts].
Qed.

Lemma py_join_strs sep l : py_join sep (VList (map VStr l)) = Ok (join sep l).
Proof.
  unfold py_join. cbn [py_iter bind].
  assert (E : mapM (fun v => match v with VStr s => Ok s | _ => Raise TypeError end)
                (map VStr l) = Ok l).
  { induction l as [|s l IH]; [reflexivity|]. simpl. now rewrite IH. }
  now rewrite E.
Qed.

(** X17: an identifier is its parts joined by dots, and nothing is lost:
    when no part has a dot in it, splitting the identifier at its dots
    gives the parts back.  The identifier list does the same to every one
    of its elements, in order. *)
Theorem IdentifierProp_typecheck_split :
  (forall self parts,
     parts <> [] -> forallb (no_char ".") parts = true ->
     IdentifierProp_typecheck self (VList (map VStr parts)) = Ok (VStr (join "." parts))
     /\ split "." (join "." parts) = parts)
  /\ (forall self ids,
        IdentifierListProp_typecheck self
          (VList (map (fun parts => VList (map VStr parts)) ids))
        = Ok (VList (map (fun parts => VStr (join "." parts)) ids))).
Proof.
  split.
  - intros self parts Hne H. unfold IdentifierProp_typecheck.
    rewrite py_join_strs. cbn [bind].
    split; [reflexivity | now apply split_join].
  - intros self ids. unfold IdentifierListProp_typecheck. cbn [py_iter bind].
    assert (E : mapM (py_join ".") (map (fun parts => VList (map VStr parts)) ids)
                = Ok (map (join ".") ids)).
    { induction ids as [|parts ids IH]; [reflexivity|].
      cbn [map mapM]. rewrite py_join_strs, IH. reflexivity. }
    rewrite E. cbn [bind]. now rewrite map_map.
Qed.

Lemma IdentifierProp_typecheck_split_witness :
  ["db"; "sch"; "tbl"] <> []
  /\ forallb (no_char ".") ["db"; "sch"; "tbl"] = true
  /\ IdentifierProp_typecheck (FlagProp_new "OWNER")
       (VList (map VStr ["db"; "sch"; "tbl"]))
     = Ok (VStr "db.sch.tbl")
  /\ split "." "db.sch.tbl" = ["db"; "sch"; "tbl"].
Proof.
  split; [discriminate|]. split; [reflexivity|].
  exact (proj1 IdentifierProp_typecheck_split (FlagProp_new "OWNER")
           ["db"; "sch"; "tbl"] ltac:(discriminate) eq_refl).
Defined.

(** ** Indexing and rendering *)

Lemma Props_rendered_other_key ps k v :
  ~ In k (map fst ps) -> Props_rendered ps [(k, v)] = Ok [].
Proof.
  induction ps as [|[k' p] ps IH]; [reflexivity|].
  intros H. rewrite Props_rendered_cons_None.
  - apply IH. intros Hin. apply H. now right.
  - unfold dict_get. simpl. destruct (String.eqb_spec k k') as [->|_]; [|reflexivity].
    exfalso. apply H. now left.
Qed.

Lemma find_key_None (ps : list (string * PropObj)) k :
  ~ In k (map fst ps) -> find (fun kp => String.eqb (fst kp) k) ps = None.
Proof.
  induction ps as [|[k' p] ps IH]; [reflexivity|].
  simpl. intros H. destruct (String.eqb_spec k' k) as [->|_].
  - exfalso. apply H. now left.
  - apply IH. intros Hin. apply H. now right.
Qed.

Lemma find_key_In (ps : list (string * PropObj)) k p :
  NoDup (map fst ps) -> In (k, p) ps ->
  find (fun kp => String.eqb (fst kp) k) ps = Some (k, p).
Proof.
  induction ps as [|[k' p'] ps IH]; [intros _ []|].
  simpl. intros Hnd Hin. inversion Hnd as [|? ? Hk' Hps]; subst.
  destruct Hin as [[= -> ->]|Hin].
  - now rewrite String.eqb_refl.
  - destruct (String.eqb_spec k' k) as [->|_]; [|now apply IH].
    exfalso. apply Hk'. apply (in_map fst) in Hin. exact Hin.
Qed.

(** X18: in a collection with unique keys, indexing by a key of the
    collection returns its descriptor, and on a record with that one
    entry the collection renders that descriptor and nothing else; for a
    key that the collection does not have, indexing raises [KeyError]
    while rendering ignores the entry. *)
Theorem Props_getitem_render : forall self k v,
  NoDup (map fst (props self)) -> v <> VNone ->
  (forall p, In (k, p) (props self) ->
     Props_getitem self k = Ok p
     /\ Props_rendered (props self) [(k, v)] = (r <- render p v ;; Ok [r]))
  /\ (~ In k (map fst (props self)) ->
      Props_getitem self k = Raise (KeyError k)
      /\ Props_rendered (props self) [(k, v)] = Ok []).
Proof.
  intros self k v Hnd Hv.
  assert (Hget : dict_get [(k, v)] k = v)
    by (unfold dict_get; simpl; now rewrite String.eqb_refl).
  split.
  - intros p Hin. unfold Props_getitem. rewrite (find_key_In _ _ _ Hnd Hin).
    split; [reflexivity|].
    apply in_split in Hin as (pre & post & E). rewrite E in *.
    rewrite map_app in Hnd. simpl in Hnd.
    rewrite Props_rendered_app.
    rewrite Props_rendered_cons_value by (rewrite Hget; exact Hv).
    rewrite Hget.
    rewrite (Props_rendered_other_key pre k v).
    + rewrite (Props_rendered_other_key post k v).
      * cbn [bind]. now destruct (render p v).
      * apply NoDup_remove_2 in Hnd. intros H. apply Hnd, in_or_app. now right.
    + apply NoDup_remove_2 in Hnd. intros H. apply Hnd, in_or_app. now left.
  - intros Hout. unfold Props_getitem. rewrite (find_key_None _ _ Hout).
    split; [reflexivity | now apply Props_rendered_other_key].
Qed.

Lemma Props_getitem_render_witness :
  NoDup (map fst example_props)
  /\ VBool true <> VNone
  /\ In ("auto_resume", BoolProp_new "AUTO_RESUME" true false [] (ConsumeList []))
       example_props
  /\ Props_getitem (mkProps example_props None None) "auto_resume"
     = Ok (BoolProp_new "AUTO_RESUME" true false [] (ConsumeList []))
  /\ Props_rendered example_props [("auto_resume", VBool true)]
     = Ok [VStr "AUTO_RESUME = TRUE"]
  /\ ~ In "owner" (map fst example_props)
  /\ Props_getitem (mkProps example_props None None) "owner" = Raise (KeyError "owner")
  /\ Props_rendered example_props [("owner", VBool true)] = Ok [].
Proof.
  assert (Hnd : NoDup (map fst example_props))
    by (repeat constructor; simpl; intuition discriminate).
  assert (Hin : In ("auto_resume",
                    BoolProp_new "AUTO_RESUME" true false [] (ConsumeList []))
                  example_props) by (simpl; auto).
  assert (Hout : ~ In "owner" (map fst example_props))
    by (simpl; intuition discriminate).
  destruct (Props_getitem_render (mkProps example_props None None)
              "auto_resume" (VBool true) Hnd ltac:(discriminate)) as [Hhas _].
  destruct (Props_getitem_render (mkProps example_props None None)
              "owner" (VBool true) Hnd ltac:(discriminate)) as [_ Hmiss].
  split; [exact Hnd|]. split; [discriminate|]. split; [exact Hin|].
  split; [exact (proj1 (Hhas _ Hin))|].
  split; [exact (proj2 (Hhas _ Hin))|].
  split; [exact Hout|].
  split; [exact (proj1 (Hmiss Hout)) | exact (proj2 (Hmiss Hout))].
Defined.
